(** * go-pi-lcd1602: the HD44780 bus driver, line writer and synchronized layer

    A shallow embedding of the Go packages [lcd1602] and [synchronized].
    Every GPIO operation, sleep, mutex operation and channel send the code
    performs is recorded, in program order, as an event; a Go function
    becomes a Rocq function returning the list of events it performs. *)

From Stdlib Require Import ZArith List Lia Bool.
From Stdlib.Strings Require Import Byte String Ascii.
Import ListNotations.
Local Open Scope Z_scope.

(** ** Machine integers *)

(** Conversion to [uint8], as in [uint8(x)] and [rpio.Pin(x)]. *)
Definition uint8 (x : Z) : Z := x mod 256.

(** [b << uint8(i)] on a [uint8] operand [b]: the count is converted to
    [uint8] first and the result keeps its low eight bits. *)
Definition shl8 (b i : Z) : Z := uint8 (Z.shiftl b (uint8 i)).

(** ** Observable events *)

(** [rpio.Pin] is a [uint8]. *)
Definition Pin := Z.

(** [time.Duration]: a number of nanoseconds. *)
Definition Duration := Z.
Definition Microsecond : Duration := 1000.
Definition Millisecond : Duration := 1000 * Microsecond.

(** The four mutexes of the two packages: [LCD.writelock], [LCD.linelock],
    [SynchronizedLCD.line1] and [SynchronizedLCD.line2]. *)
Inductive mutex : Type := writelock | linelock | line1 | line2.

Inductive event : Type :=
| High (p : Pin)            (* pin.High() *)
| Low (p : Pin)             (* pin.Low() *)
| Output (p : Pin)          (* pin.Output() *)
| Sleep (d : Duration)      (* time.Sleep(d) *)
| Lock (m : mutex)          (* m.Lock() *)
| Unlock (m : mutex)        (* m.Unlock() *)
| RpioOpen                  (* rpio.Open() *)
| AnimationWidth (w : Z)    (* animation.Width(w) *)
| AnimationDelay            (* animation.Delay() *)
| SendDone.                 (* done <- true *)

Definition trace := list event.

Definition mutex_eqb (a b : mutex) : bool :=
  match a, b with
  | writelock, writelock | linelock, linelock
  | line1, line1 | line2, line2 => true
  | _, _ => false
  end.

(** How often mutex [m] is acquired, resp. released, in a trace. *)
Definition locks (m : mutex) (t : trace) : nat :=
  List.length (filter (fun e => match e with Lock m' => mutex_eqb m m' | _ => false end) t).
Definition unlocks (m : mutex) (t : trace) : nat :=
  List.length (filter (fun e => match e with Unlock m' => mutex_eqb m m' | _ => false end) t).

(** How often pin [p] is driven high in a trace. *)
Definition rises (p : Pin) (t : trace) : nat :=
  List.length (filter (fun e => match e with High q => Z.eqb p q | _ => false end) t).

(** [for i, x := range xs { body(i, x) }] for a body that only emits events. *)
Fixpoint range_from {A : Type} (i : Z) (body : Z -> A -> trace) (xs : list A) : trace :=
  match xs with
  | [] => []
  | x :: xs' => body i x ++ range_from (i + 1) body xs'
  end.
Definition range {A : Type} (body : Z -> A -> trace) (xs : list A) : trace :=
  range_from 0 body xs.

(** ** Go strings *)

(** A Go [string] is a sequence of bytes. *)
Definition gostring := list byte.
Definition byte_val (b : byte) : Z := Z.of_N (Byte.to_N b).
Definition gostr (s : string) : gostring := list_byte_of_string s.

(** [s[:n]]: panics ([None]) unless [0 <= n <= len(s)]. *)
Definition slice_to (s : gostring) (n : Z) : option gostring :=
  if (n <? 0) || (Z.of_nat (List.length s) <? n) then None
  else Some (firstn (Z.to_nat n) s).

(** *** UTF-8 decoding, as package [unicode/utf8] and the [range] loop over
    a string do it *)

Module utf8.

Definition RuneError : Z := 0xFFFD.
Definition locb : Z := 0x80.
Definition hicb : Z := 0xBF.

(** What the table [first] says about a leading byte: a one-byte rune, an
    invalid leading byte, or a sequence of [size] bytes whose second byte
    must lie in [lo..hi]. *)
Inductive lead : Type :=
| as_ascii
| invalid
| sequence (size : nat) (lo hi : Z).

Definition first (b : Z) : lead :=
  if b <? 0x80 then as_ascii
  else if b <? 0xC2 then invalid
  else if b <? 0xE0 then sequence 2 locb hicb
  else if b =? 0xE0 then sequence 3 0xA0 hicb
  else if b <? 0xED then sequence 3 locb hicb
  else if b =? 0xED then sequence 3 locb 0x9F
  else if b <? 0xF0 then sequence 3 locb hicb
  else if b =? 0xF0 then sequence 4 0x90 hicb
  else if b <? 0xF4 then sequence 4 locb hicb
  else if b =? 0xF4 then sequence 4 locb 0x8F
  else invalid.

Definition continuation (lo hi b : Z) : bool := (lo <=? b) && (b <=? hi).

(** [DecodeRuneInString]: the first rune of [s] and its width in bytes;
    an invalid or truncated encoding yields [(RuneError, 1)]. *)
Definition DecodeRuneInString (s : gostring) : Z * nat :=
  match s with
  | [] => (RuneError, 0%nat)
  | b0 :: rest =>
    let s0 := byte_val b0 in
    match first s0 with
    | as_ascii => (s0, 1%nat)
    | invalid => (RuneError, 1%nat)
    | sequence sz lo hi =>
      if (List.length s <? sz)%nat then (RuneError, 1%nat) else
      match rest with
      | [] => (RuneError, 1%nat)
      | b1 :: rest1 =>
        let s1 := byte_val b1 in
        if negb (continuation lo hi s1) then (RuneError, 1%nat) else
        if (sz <=? 2)%nat then
          (Z.lor (Z.shiftl (Z.land s0 0x1F) 6) (Z.land s1 0x3F), 2%nat)
        else
        match rest1 with
        | [] => (RuneError, 1%nat)
        | b2 :: rest2 =>
          let s2 := byte_val b2 in
          if negb (continuation locb hicb s2) then (RuneError, 1%nat) else
          if (sz <=? 3)%nat then
            (Z.lor (Z.lor (Z.shiftl (Z.land s0 0x0F) 12)
                          (Z.shiftl (Z.land s1 0x3F) 6))
                   (Z.land s2 0x3F), 3%nat)
          else
          match rest2 with
          | [] => (RuneError, 1%nat)
          | b3 :: _ =>
            let s3 := byte_val b3 in
            if negb (continuation locb hicb s3) then (RuneError, 1%nat) else
            (Z.lor (Z.lor (Z.lor (Z.shiftl (Z.land s0 0x07) 18)
                                 (Z.shiftl (Z.land s1 0x3F) 12))
                          (Z.shiftl (Z.land s2 0x3F) 6))
                   (Z.land s3 0x3F), 4%nat)
          end
        end
      end
    end
  end.

(** The runes [for _, c := range s] yields, in order.  [skip] counts the
    bytes still belonging to the rune decoded last. *)
Fixpoint runes_from (skip : nat) (s : gostring) : list Z :=
  match s with
  | [] => []
  | _ :: s' =>
    match skip with
    | S k => runes_from k s'
    | O => let (r, size) := DecodeRuneInString s in
           r :: runes_from (size - 1) s'
    end
  end.
Definition runes (s : gostring) : list Z := runes_from 0 s.

(** [RuneCountInString]: invalid bytes count as one rune each, exactly as
    the [range] loop sees them. *)
Definition RuneCountInString (s : gostring) : Z := Z.of_nat (List.length (runes s)).

End utf8.

(** *** Package [fmt], as far as [WriteLine] uses it *)

Module fmt.

Definition space : byte := x20.

(** The bound [fmt] puts on a number in a format string: every width up to
    this magnitude is accepted. *)
Definition widthLimit : Z := 1000000.

(** Reading the digits of a width, [fmt] gives up as soon as the number read
    so far exceeds [widthLimit] and a further digit follows: that is the
    case from this magnitude on. *)
Definition refusedFrom : Z := 10000010.

(** What [Sprintf] prints for a format whose width it gave up on, in front
    of the unused argument. *)
Definition noVerb : gostring := gostr "%!(NOVERB)%!(EXTRA string=".

(** [Sprintf(Sprintf("%%%ds", w), s)].
    The inner call prints [w] in decimal between [%] and [s].  For [w >= 0]
    the outer call pads [s] on the left with spaces up to [w] runes (width
    is counted in runes); a negative [w] reads as the flag [-] followed by
    the width [-w], which pads on the right.  From [refusedFrom] on the
    outer call finds no verb and reports the argument as unused. *)
Definition Sprintf_width (w : Z) (s : gostring) : gostring :=
  if refusedFrom <=? Z.abs w then noVerb ++ s ++ gostr ")"
  else
    let padding := repeat space (Z.to_nat (Z.abs w - utf8.RuneCountInString s)) in
    if w <? 0 then s ++ padding else padding ++ s.

End fmt.

(** ** Calls that may panic *)

Inductive outcome : Type :=
| Returns (t : trace)     (* ran to completion, performing [t] *)
| Panics (t : trace).     (* panicked after performing [t] *)

(** Sequencing: what follows a panic does not run. *)
Definition and_then (o : outcome) (k : outcome) : outcome :=
  match o with
  | Panics t => Panics t
  | Returns t =>
    match k with
    | Returns t' => Returns (t ++ t')
    | Panics t' => Panics (t ++ t')
    end
  end.
Notation "o ;; k" := (and_then o k) (at level 61, right associativity).

(** ** Package lcd1602 *)

Module lcd1602.

Definition RSData : bool := true.
Definition RSInstruction : bool := false.

Definition LineNumber := Z.
Definition Line1 : LineNumber := 0x80.
Definition Line2 : LineNumber := 0xC0.

Definition EnableDelay : Duration := 1 * Microsecond.
Definition ExecutionTimeDefault : Duration := 40 * Microsecond.
Definition ExecutionTimeReturnHome : Duration := 1520 * Microsecond.

(** [type Character [8]uint8]: exactly eight rows. *)
Record Character : Type := mkCharacter {
  row0 : Z; row1 : Z; row2 : Z; row3 : Z;
  row4 : Z; row5 : Z; row6 : Z; row7 : Z
}.
Definition rows (c : Character) : list Z :=
  [row0 c; row1 c; row2 c; row3 c; row4 c; row5 c; row6 c; row7 c].

Record LCD : Type := mkLCD {
  RS : Pin;
  E : Pin;
  DataPins : list Pin;
  LineWidth : Z
}.

(** [setBitToPin]: the pin goes high when every bit of [position] is set in
    [data]. *)
Definition setBitToPin (pin : Pin) (data position : Z) : trace :=
  if Z.land data position =? position then [High pin] else [Low pin].

(** [LCD.enable] *)
Definition enable (l : LCD) (executionTime : Duration) : trace :=
  [Sleep EnableDelay; High (E l); Sleep EnableDelay; Low (E l);
   Sleep executionTime].

(** The loop [for i, dataPin := range l.DataPins
    { setBitToPin(dataPin, data, base<<uint8(i)) }]. *)
Definition present (l : LCD) (data base : Z) : trace :=
  range (fun i dataPin => setBitToPin dataPin data (shl8 base i)) (DataPins l).

(** [LCD.Write] *)
Definition Write (l : LCD) (data : Z) (mode : bool) : trace :=
  [Lock writelock]
  ++ [if mode then High (RS l) else Low (RS l)]
  ++ map Low (DataPins l)
  ++ (if (Z.of_nat (List.length (DataPins l)) =? 4)
      then present l data 0x10
           ++ enable l ExecutionTimeDefault
           ++ present l data 0x01
      else present l data 0x01)
  ++ enable l ExecutionTimeDefault
  ++ [Unlock writelock].

(** [LCD.ReturnHome] *)
Definition ReturnHome (l : LCD) : trace :=
  Write l 0x02 RSInstruction ++ [Sleep ExecutionTimeReturnHome].

(** [LCD.EntryModeSet] *)
Definition EntryModeSet (l : LCD) (increment shift : bool) : trace :=
  let instruction := 0x04 in
  let instruction := if increment then Z.lor instruction 0x02 else instruction in
  let instruction := if shift then Z.lor instruction 0x01 else instruction in
  Write l instruction RSInstruction.

(** [LCD.DisplayMode] *)
Definition DisplayMode (l : LCD) (display cursor blink : bool) : trace :=
  let instruction := 0x08 in
  let instruction := if display then Z.lor instruction 0x04 else instruction in
  let instruction := if cursor then Z.lor instruction 0x02 else instruction in
  let instruction := if blink then Z.lor instruction 0x01 else instruction in
  Write l instruction RSInstruction.

(** [LCD.Clear] *)
Definition Clear (l : LCD) : trace := Write l 0x01 RSInstruction.

(** [LCD.Reset] *)
Definition Reset (l : LCD) : trace :=
  Write l 0x33 RSInstruction ++ [Sleep ExecutionTimeDefault]
  ++ Write l 0x32 RSInstruction ++ [Sleep ExecutionTimeDefault].

(** [LCD.Initialize] *)
Definition Initialize (l : LCD) : trace :=
  Reset l
  ++ EntryModeSet l true false
  ++ DisplayMode l true false false
  ++ Write l 0x28 RSInstruction
  ++ ReturnHome l
  ++ Clear l
  ++ [Sleep (10 * Millisecond)].

(** [LCD.CreateChar]; [position] is a [uint8], so is [position<<3]. *)
Definition CreateChar (l : LCD) (position : Z) (data : Character) : trace :=
  if 7 <? position then []
  else Write l (Z.lor 0x40 (shl8 position 3)) false
       ++ flat_map (fun x => Write l x true) (rows data).

(** [LCD.Width] and [LCD.Close] *)
Definition Width (l : LCD) : Z := LineWidth l.
Definition Close (l : LCD) : trace := [].

(** [LCD.WriteLine].  The deferred [linelock.Unlock()] also runs when the
    slice expression panics. *)
Definition WriteLine (l : LCD) (s : gostring) (line : LineNumber) : outcome :=
  let s := fmt.Sprintf_width (LineWidth l) s in
  match slice_to s (LineWidth l) with
  | None => Panics [Lock linelock; Unlock linelock]
  | Some s =>
    Returns ([Lock linelock]
             ++ Write l (uint8 line) RSInstruction
             ++ flat_map (fun c => Write l (uint8 c) RSData) (utf8.runes s)
             ++ [Unlock linelock])
  end.

(** The package-level flag [rpioPrepared]. *)
Record globals : Type := { rpioPrepared : bool }.

(** A call that may end the process through [log.Fatalln]. *)
Inductive run (A : Type) : Type :=
| Ret (a : A) (g : globals) (t : trace)
| Fatal (t : trace).
Arguments Ret {A} a g t.
Arguments Fatal {A} t.

(** [Open]; [gpio_ok] tells whether [rpio.Open()] succeeds. *)
Definition Open (gpio_ok : bool) (g : globals) : run unit :=
  if gpio_ok then Ret tt {| rpioPrepared := true |} [RpioOpen]
  else Fatal [RpioOpen].

(** [LCD.initPins] *)
Definition initPins (gpio_ok : bool) (g : globals) (l : LCD) : run unit :=
  match (if rpioPrepared g then Ret tt g [] else Open gpio_ok g) with
  | Fatal t => Fatal t
  | Ret _ g' t =>
    Ret tt g' (t ++ [Output (RS l); Output (E l)] ++ map Output (DataPins l))
  end.

(** [New]: either the error ([inr]) or the display ([inl]). *)
Definition New (gpio_ok : bool) (g : globals)
    (rs e : Z) (data : list Z) (linewidth : Z) : run (LCD + string) :=
  let datalength := Z.of_nat (List.length data) in
  if negb (datalength =? 4) && negb (datalength =? 8) then
    Ret (inr "LCD requires four or eight datapins"%string) g []
  else
    let datapins := map uint8 data in
    let l := {| RS := uint8 rs; E := uint8 e;
                DataPins := datapins; LineWidth := linewidth |} in
    match initPins gpio_ok g l with
    | Fatal t => Fatal t
    | Ret _ g' t => Ret (inl l) g' t
    end.

(** The interface [LCDI]. *)
Module LCDI.
Class t (T : Type) : Type := {
  Initialize : T -> trace;
  ReturnHome : T -> trace;
  EntryModeSet : T -> bool -> bool -> trace;
  DisplayMode : T -> bool -> bool -> bool -> trace;
  Clear : T -> trace;
  Reset : T -> trace;
  Write : T -> Z -> bool -> trace;
  WriteLine : T -> gostring -> LineNumber -> outcome;
  CreateChar : T -> Z -> Character -> trace;
  Width : T -> Z;
  Close : T -> trace
}.
End LCDI.

#[export] Instance LCD_LCDI : LCDI.t LCD := {|
  LCDI.Initialize := Initialize;
  LCDI.ReturnHome := ReturnHome;
  LCDI.EntryModeSet := EntryModeSet;
  LCDI.DisplayMode := DisplayMode;
  LCDI.Clear := Clear;
  LCDI.Reset := Reset;
  LCDI.Write := Write;
  LCDI.WriteLine := WriteLine;
  LCDI.CreateChar := CreateChar;
  LCDI.Width := Width;
  LCDI.Close := Close
|}.

(** [SetCustomCharacters] *)
Definition SetCustomCharacters {T : Type} `{LCDI.t T}
    (l : T) (characters : list Character) : trace :=
  range (fun index chr =>
           let offset := 8 - Z.of_nat (List.length characters) + index in
           if offset <? 0 then []
           else LCDI.CreateChar l (uint8 offset) chr)
        characters.

End lcd1602.

(** ** Package animations *)

Module animations.

(** Modelled from the spec: the interface [animations.Animation], whose
    declaration is not among the sources.  The spec gives its capability
    set: accept a width hint, report done, produce the current content as
    text, wait between frames.  An animation is an object with internal
    state; each method maps the state before the call to the state after. *)
Class Animation (A : Type) : Type := {
  Width : Z -> A -> A;
  Done : A -> bool * A;
  Content : A -> gostring * A;
  Delay : A -> A
}.

End animations.

(** ** Package synchronized *)

Module synchronized.

Import lcd1602.

(** [SynchronizedLCD] embeds an [LCDI]; its mutexes are [line1], [line2]. *)
Record SynchronizedLCD (T : Type) : Type := { lcd : T }.
Arguments lcd {T} s.

Section Synchronized.
Context {T : Type} `{LCDI.t T}.

(** [NewSynchronizedLCD] *)
Definition NewSynchronizedLCD (l : T) : SynchronizedLCD T * trace :=
  ({| lcd := l |}, LCDI.Initialize l).

(** [SynchronizedLCD.WriteLines] *)
Definition WriteLines (l : SynchronizedLCD T) (lines : list gostring) : outcome :=
  (match lines with
   | text :: _ =>
     Returns [Lock line1] ;; LCDI.WriteLine (lcd l) text Line1 ;; Returns [Unlock line1]
   | [] => Returns []
   end) ;;
  (match lines with
   | _ :: text :: _ =>
     Returns [Lock line2] ;; LCDI.WriteLine (lcd l) text Line2 ;; Returns [Unlock line2]
   | _ => Returns []
   end).

(** The two [switch line] statements of [Animate]. *)
Definition lock_line (line : LineNumber) : trace :=
  if line =? Line1 then [Lock line1]
  else if line =? Line2 then [Lock line2]
  else [].
Definition unlock_line (line : LineNumber) : trace :=
  if line =? Line1 then [Unlock line1]
  else if line =? Line2 then [Unlock line2]
  else [].

(** How far a goroutine has come. *)
Inductive task : Type :=
| Finished (t : trace)    (* ran to its end *)
| Running (t : trace)     (* performed [t] so far and goes on *)
| Crashed (t : trace).    (* a call panicked *)

Definition task_trace (k : task) : trace :=
  match k with Finished t | Running t | Crashed t => t end.

Definition after (t : trace) (k : task) : task :=
  match k with
  | Finished t' => Finished (t ++ t')
  | Running t' => Running (t ++ t')
  | Crashed t' => Crashed (t ++ t')
  end.

Section Animate.
Context {A : Type} `{animations.Animation A}.

(** The loop [for !animation.Done() { ... }], observed for at most [fuel]
    evaluations of its condition. *)
Fixpoint drive (fuel : nat) (l : SynchronizedLCD T) (animation : A)
    (line : LineNumber) : task :=
  match fuel with
  | O => Running []
  | S fuel' =>
    let (done, animation) := animations.Done animation in
    if done then Finished []
    else
      let (s, animation) := animations.Content animation in
      match LCDI.WriteLine (lcd l) s line with
      | Panics t => Crashed t
      | Returns t =>
        after (t ++ [AnimationDelay])
              (drive fuel' l (animations.Delay animation) line)
      end
  end.

(** The goroutine [Animate] starts. *)
Definition goroutine (fuel : nat) (l : SynchronizedLCD T) (animation : A)
    (line : LineNumber) : task :=
  let w := LCDI.Width (lcd l) in
  after [AnimationWidth w]
    (match drive fuel l (animations.Width w animation) line with
     | Finished t => Finished (t ++ unlock_line line ++ [SendDone])
     | k => k
     end).

(** [SynchronizedLCD.Animate]: what the call itself performs before it
    returns the channel, and the goroutine it leaves behind. *)
Definition Animate (l : SynchronizedLCD T) (animation : A) (line : LineNumber)
    : trace * (nat -> task) :=
  (lock_line line, fun fuel => goroutine fuel l animation line).

End Animate.
End Synchronized.

End synchronized.

(** ** Vocabulary of the statements *)

(** The event that puts pin [p] at level [b]. *)
Definition level (p : Pin) (b : bool) : event := if b then High p else Low p.

(** How many calls of [LCD.Write] a trace contains: each call takes
    [writelock] once and nothing else takes it. *)
Definition write_calls (t : trace) : nat := locks writelock t.

(** The display of the example program: four data pins, sixteen columns. *)
Definition example_display : lcd1602.LCD :=
  {| lcd1602.RS := 10; lcd1602.E := 9;
     lcd1602.DataPins := [6; 13; 19; 26]; lcd1602.LineWidth := 16 |}.

(** A display on an eight-pin bus. *)
Definition wide_bus_display : lcd1602.LCD :=
  {| lcd1602.RS := 10; lcd1602.E := 9;
     lcd1602.DataPins := [2; 3; 4; 17; 6; 13; 19; 26]; lcd1602.LineWidth := 16 |}.

(** The same bus with three columns only. *)
Definition narrow_display : lcd1602.LCD :=
  {| lcd1602.RS := 10; lcd1602.E := 9;
     lcd1602.DataPins := [6; 13; 19; 26]; lcd1602.LineWidth := 3 |}.

(** A glyph whose eight rows all show the pattern [k]. *)
Definition glyph (k : Z) : lcd1602.Character :=
  lcd1602.mkCharacter k k k k k k k k.

(** Text made of one-byte runes only. *)
Definition ascii_only (s : gostring) : Prop :=
  Forall (fun b => byte_val b < 0x80) s.

(** The text a line of [width] columns receives for [s]: [s] behind as many
    spaces as its rune count is short of [width], cut after [width] bytes. *)
Definition fitted (width : Z) (s : gostring) : gostring :=
  firstn (Z.to_nat width)
    (repeat fmt.space (Z.to_nat (width - utf8.RuneCountInString s)) ++ s).

(** The events of a line write that returns: the address as an instruction
    write, then one data write per rune of [text], under [linelock]. *)
Definition line_write (l : lcd1602.LCD) (line : Z) (text : gostring) : trace :=
  [Lock linelock]
  ++ lcd1602.Write l line lcd1602.RSInstruction
  ++ flat_map (fun c => lcd1602.Write l (uint8 c) lcd1602.RSData) (utf8.runes text)
  ++ [Unlock linelock].

(** One turn of the drive loop of [Animate]: the line write of the fitted
    text, then the wait between frames. *)
Definition frame_events (l : lcd1602.LCD) (line : Z) (s : gostring) : trace :=
  line_write l (uint8 line) (fitted (lcd1602.LineWidth l) s) ++ [AnimationDelay].

Section Frames.
Context {A : Type} `{animations.Animation A}.

(** The texts the drive loop of [Animate] fetches during its first [fuel]
    evaluations of [animation.Done()]. *)
Fixpoint frames (fuel : nat) (animation : A) : list gostring :=
  match fuel with
  | O => []
  | S fuel' =>
    let (done, animation) := animations.Done animation in
    if done then []
    else
      let (s, animation) := animations.Content animation in
      s :: frames fuel' (animations.Delay animation)
  end.

(** Whether [animation.Done()] answers true within [fuel] evaluations. *)
Fixpoint done_within (fuel : nat) (animation : A) : bool :=
  match fuel with
  | O => false
  | S fuel' =>
    let (done, animation) := animations.Done animation in
    if done then true
    else
      let (s, animation) := animations.Content animation in
      done_within fuel' (animations.Delay animation)
  end.

End Frames.

(** An animation that shows its text a given number of times. *)
Record Repeat : Type := { text : gostring; remaining : nat }.

#[export] Instance Repeat_Animation : animations.Animation Repeat := {|
  animations.Width := fun _ a => a;
  animations.Done := fun a => (Nat.eqb (remaining a) 0, a);
  animations.Content := fun a => (text a, a);
  animations.Delay := fun a => {| text := text a; remaining := pred (remaining a) |}
|}.

(** ** Further vocabulary: time, pins, lock nesting, package shutdown *)

(** The time a trace spends in [time.Sleep], in nanoseconds. *)
Fixpoint duration (t : trace) : Z :=
  match t with
  | [] => 0
  | Sleep d :: t' => d + duration t'
  | _ :: t' => duration t'
  end.

(** What a bus operation of display [l] may do: drive RS, E or a data pin,
    sleep, and take or release one of the two mutexes of the display. *)
Definition bus_event (l : lcd1602.LCD) (e : event) : Prop :=
  match e with
  | High p | Low p =>
    p = lcd1602.RS l \/ p = lcd1602.E l \/ In p (lcd1602.DataPins l)
  | Sleep _ => True
  | Lock m | Unlock m => m = writelock \/ m = linelock
  | _ => False
  end.

(** The events of a call, whether it returned or panicked. *)
Definition events (o : outcome) : trace :=
  match o with Returns t | Panics t => t end.

Definition holds (held : list mutex) (m : mutex) : bool :=
  existsb (mutex_eqb m) held.

(** Runs the mutex operations of a trace from the mutexes [held], latest
    first.  [sync.Mutex] is not reentrant: locking a held mutex never
    returns, and unlocking a free one is a fatal error; both give [None].
    Otherwise the mutexes held at the end. *)
Fixpoint run_mutexes (held : list mutex) (t : trace) : option (list mutex) :=
  match t with
  | [] => Some held
  | Lock m :: t' =>
    if holds held m then None else run_mutexes (m :: held) t'
  | Unlock m :: t' =>
    if holds held m
    then run_mutexes (filter (fun m' => negb (mutex_eqb m m')) held) t'
    else None
  | _ :: t' => run_mutexes held t'
  end.

(** A trace without mutex operations. *)
Definition quiet (t : trace) : Prop :=
  Forall (fun e => match e with Lock _ | Unlock _ => False | _ => True end) t.

(** How often the goroutine of [Animate] sends on the channel. *)
Definition sends (t : trace) : nat :=
  List.length (filter (fun e => match e with SendDone => true | _ => false end) t).

(** How often [rpio.Open] is called. *)
Definition opens (t : trace) : nat :=
  List.length (filter (fun e => match e with RpioOpen => true | _ => false end) t).

(** The package-level function [Close] of [lcd1602] (the method of the same
    name on [LCD] is [lcd1602.Close]). *)
Module lcd1602_package.

(** What a call of [Close] does: whether it calls [rpio.Close], and the
    globals it returns with, [None] when [log.Fatalln] ends the process. *)
Record closed : Type := {
  rpio_closed : bool;
  after_close : option lcd1602.globals
}.

(** [Close]; [close_ok] tells whether [rpio.Close()] succeeds. *)
Definition Close (close_ok : bool) (g : lcd1602.globals) : closed :=
  if lcd1602.rpioPrepared g then
    if close_ok then {| rpio_closed := true; after_close := Some g |}
    else {| rpio_closed := true; after_close := None |}
  else {| rpio_closed := false; after_close := Some g |}.

End lcd1602_package.

(** The instruction classes of the controller that matter at start-up, by
    the highest set bit of the instruction byte: Set DDRAM Address has bit 7
    set, as the line addresses [Line1] and [Line2] have; Function Set has
    bits 7 and 6 clear and bit 5 set. *)
Definition set_DDRAM_address (v : Z) : bool := Z.testbit v 7.
Definition function_set (v : Z) : bool :=
  negb (Z.testbit v 7) && negb (Z.testbit v 6) && Z.testbit v 5.

(** * Properties *)

Import lcd1602.

(** ** Counting events *)

Lemma locks_app m t u : locks m (t ++ u) = (locks m t + locks m u)%nat.
Proof. unfold locks. now rewrite filter_app, length_app. Qed.

Lemma unlocks_app m t u : unlocks m (t ++ u) = (unlocks m t + unlocks m u)%nat.
Proof. unfold unlocks. now rewrite filter_app, length_app. Qed.

Lemma rises_app p t u : rises p (t ++ u) = (rises p t + rises p u)%nat.
Proof. unfold rises. now rewrite filter_app, length_app. Qed.

Lemma rises_map_Low p ps : rises p (map Low ps) = 0%nat.
Proof. induction ps as [|q ps IH]; [reflexivity | exact IH]. Qed.

Lemma locks_map_Low m ps : locks m (map Low ps) = 0%nat.
Proof. induction ps as [|q ps IH]; [reflexivity | exact IH]. Qed.

Lemma unlocks_map_Low m ps : unlocks m (map Low ps) = 0%nat.
Proof. induction ps as [|q ps IH]; [reflexivity | exact IH]. Qed.

(** ** The [range] loop *)

Lemma range_from_ext {A} (f g : Z -> A -> trace) xs : forall i,
  (forall j x, i <= j < i + Z.of_nat (List.length xs) -> f j x = g j x) ->
  range_from i f xs = range_from i g xs.
Proof.
  induction xs as [|x xs IH]; intros i Hfg; [reflexivity|].
  cbn [range_from]. cbn [List.length] in Hfg.
  rewrite (Hfg i x) by lia. f_equal.
  apply IH. intros j y Hj. apply Hfg. lia.
Qed.

Lemma range_from_count {A} (count : trace -> nat) (f : Z -> A -> trace) xs :
  (forall t u, count (t ++ u) = (count t + count u)%nat) ->
  count [] = 0%nat ->
  forall i, (forall j x, In x xs -> count (f j x) = 0%nat) ->
  count (range_from i f xs) = 0%nat.
Proof.
  intros Happ Hnil. induction xs as [|x xs IH]; intros i Hf; [exact Hnil|].
  cbn [range_from]. rewrite Happ, (Hf i x) by now left.
  apply IH. intros j y Hy. apply Hf. now right.
Qed.

(** ** Bits *)

Lemma uint8_small x : 0 <= x < 256 -> uint8 x = x.
Proof. intros Hx. unfold uint8. now apply Z.mod_small. Qed.

Lemma shl8_small b i :
  0 <= i < 256 -> 0 <= b -> b * 2 ^ i < 256 -> shl8 b i = Z.shiftl b i.
Proof.
  intros Hi Hb Hlt. unfold shl8. rewrite (uint8_small i) by exact Hi.
  rewrite Z.shiftl_mul_pow2 by lia. apply uint8_small. split; [|exact Hlt].
  apply Z.mul_nonneg_nonneg; [exact Hb|]. apply Z.pow_nonneg. lia.
Qed.

Lemma land_pow2 a k :
  0 <= k -> Z.land a (2 ^ k) = if Z.testbit a k then 2 ^ k else 0.
Proof.
  intros Hk. apply Z.bits_inj'. intros n Hn.
  rewrite Z.land_spec, Z.pow2_bits_eqb by exact Hk.
  destruct (Z.eqb_spec k n) as [->|Hne].
  - destruct (Z.testbit a n); [now rewrite Z.pow2_bits_true|now rewrite Z.bits_0].
  - rewrite andb_false_r.
    destruct (Z.testbit a k); [|now rewrite Z.bits_0].
    rewrite Z.pow2_bits_false; [reflexivity|exact Hne].
Qed.

(** [setBitToPin] with a one-bit mask copies that bit of [data] to the pin. *)
Lemma setBitToPin_testbit pin data k :
  0 <= k -> setBitToPin pin data (2 ^ k) = [level pin (Z.testbit data k)].
Proof.
  intros Hk. unfold setBitToPin, level. rewrite land_pow2 by exact Hk.
  assert (0 < 2 ^ k) by (apply Z.pow_pos_nonneg; lia).
  destruct (Z.testbit data k).
  - now rewrite Z.eqb_refl.
  - destruct (Z.eqb_spec 0 (2 ^ k)); [lia|reflexivity].
Qed.

(** The presentation loop over at most [8 - lo] pins, started at bit [lo]:
    pin [i] receives bit [lo + i] of [data], through the mask
    [2^lo << i]. *)
Lemma present_bits l data lo :
  0 <= lo -> lo + Z.of_nat (List.length (DataPins l)) <= 8 ->
  present l data (2 ^ lo)
  = range (fun i pin => setBitToPin pin data (Z.shiftl (2 ^ lo) i)) (DataPins l)
  /\ present l data (2 ^ lo)
     = range (fun i pin => [level pin (Z.testbit data (lo + i))]) (DataPins l).
Proof.
  intros Hlo Hlen. unfold present, range.
  assert (Hpow : forall j, 0 <= j -> lo + j < 8 -> 0 < 2 ^ lo * 2 ^ j < 256).
  { intros j Hj Hlt. rewrite <- Z.pow_add_r by lia. split.
    - apply Z.pow_pos_nonneg; lia.
    - change 256 with (2 ^ 8). apply Z.pow_lt_mono_r; lia. }
  split; apply range_from_ext; intros j pin Hj.
  - rewrite shl8_small; [reflexivity|lia| |apply Hpow; lia].
    apply Z.pow_nonneg; lia.
  - rewrite shl8_small; [|lia| |apply Hpow; lia].
    + rewrite Z.shiftl_mul_pow2, <- Z.pow_add_r by lia.
      apply setBitToPin_testbit. lia.
    + apply Z.pow_nonneg; lia.
Qed.

Lemma rises_setBitToPin p pin data position :
  p <> pin -> rises p (setBitToPin pin data position) = 0%nat.
Proof.
  intros Hne. unfold setBitToPin.
  destruct (_ =? _); cbn; [|reflexivity].
  destruct (Z.eqb_spec p pin); [contradiction|reflexivity].
Qed.

Lemma rises_present p l data base :
  ~ In p (DataPins l) -> rises p (present l data base) = 0%nat.
Proof.
  intros Hnot. unfold present, range.
  apply range_from_count; [apply rises_app|reflexivity|].
  intros j pin Hin. apply rises_setBitToPin. intros ->. contradiction.
Qed.

Lemma rises_enable l t : rises (E l) (enable l t) = 1%nat.
Proof. unfold enable, rises. cbn. now rewrite Z.eqb_refl. Qed.

(** ** The bus write *)

Lemma rises_Write_prefix l mode :
  E l <> RS l -> ~ In (E l) (DataPins l) ->
  rises (E l) ([Lock writelock; level (RS l) mode] ++ map Low (DataPins l)) = 0%nat.
Proof.
  intros Hrs Hpins. rewrite rises_app, rises_map_Low.
  destruct mode; cbn; [|reflexivity].
  destruct (Z.eqb_spec (E l) (RS l)); [contradiction|reflexivity].
Qed.

(** C2: [Write] sets RS from [mode], drives every data pin low, and then,
    with four data pins, presents bits 4..7 through the masks [0x10 << i],
    pulses enable, presents bits 0..3 through the masks [0x01 << i] and
    pulses enable again (two pulses); with eight data pins it presents bits
    0..7 through the masks [0x01 << i] and pulses enable once. *)
Theorem Write_protocol (l : LCD) (data : Z) (mode : bool) :
  (List.length (DataPins l) = 4%nat ->
   Write l data mode
   = [Lock writelock; level (RS l) mode]
     ++ map Low (DataPins l)
     ++ range (fun i pin => setBitToPin pin data (Z.shiftl 0x10 i)) (DataPins l)
     ++ enable l ExecutionTimeDefault
     ++ range (fun i pin => setBitToPin pin data (Z.shiftl 0x01 i)) (DataPins l)
     ++ enable l ExecutionTimeDefault
     ++ [Unlock writelock]
   /\ range (fun i pin => setBitToPin pin data (Z.shiftl 0x10 i)) (DataPins l)
      = range (fun i pin => [level pin (Z.testbit data (4 + i))]) (DataPins l)
   /\ range (fun i pin => setBitToPin pin data (Z.shiftl 0x01 i)) (DataPins l)
      = range (fun i pin => [level pin (Z.testbit data (0 + i))]) (DataPins l)
   /\ (~ In (E l) (RS l :: DataPins l) ->
       rises (E l) (Write l data mode) = 2%nat))
  /\
  (List.length (DataPins l) = 8%nat ->
   Write l data mode
   = [Lock writelock; level (RS l) mode]
     ++ map Low (DataPins l)
     ++ range (fun i pin => setBitToPin pin data (Z.shiftl 0x01 i)) (DataPins l)
     ++ enable l ExecutionTimeDefault
     ++ [Unlock writelock]
   /\ range (fun i pin => setBitToPin pin data (Z.shiftl 0x01 i)) (DataPins l)
      = range (fun i pin => [level pin (Z.testbit data (0 + i))]) (DataPins l)
   /\ (~ In (E l) (RS l :: DataPins l) ->
       rises (E l) (Write l data mode) = 1%nat)).
Proof.
  split; intros Hlen.
  - destruct (present_bits l data 4) as [Hhi Hhi']; [lia|rewrite Hlen; cbn; lia|].
    destruct (present_bits l data 0) as [Hlo Hlo']; [lia|rewrite Hlen; cbn; lia|].
    change (2 ^ 4) with 0x10 in Hhi, Hhi'. change (2 ^ 0) with 0x01 in Hlo, Hlo'.
    assert (Heq : Write l data mode
                  = [Lock writelock; level (RS l) mode] ++ map Low (DataPins l)
                    ++ present l data 0x10 ++ enable l ExecutionTimeDefault
                    ++ present l data 0x01 ++ enable l ExecutionTimeDefault
                    ++ [Unlock writelock]).
    { unfold Write. rewrite Hlen. cbn [Z.of_nat Pos.of_succ_nat Pos.succ Z.eqb Pos.eqb].
      unfold level. cbn [app]. now rewrite <- !app_assoc. }
    repeat split.
    + rewrite Heq, Hhi, Hlo. reflexivity.
    + rewrite <- Hhi. exact Hhi'.
    + rewrite <- Hlo. exact Hlo'.
    + intros Hnot. rewrite Heq.
      assert (E l <> RS l) by (intros Heq'; apply Hnot; left; now rewrite Heq').
      assert (~ In (E l) (DataPins l)) by (intros Hin; apply Hnot; now right).
      rewrite app_assoc, rises_app, rises_Write_prefix by assumption.
      rewrite !rises_app, !rises_present, !rises_enable by assumption.
      reflexivity.
  - destruct (present_bits l data 0) as [Hlo Hlo']; [lia|rewrite Hlen; cbn; lia|].
    change (2 ^ 0) with 0x01 in Hlo, Hlo'.
    assert (Heq : Write l data mode
                  = [Lock writelock; level (RS l) mode] ++ map Low (DataPins l)
                    ++ present l data 0x01 ++ enable l ExecutionTimeDefault
                    ++ [Unlock writelock]).
    { unfold Write. rewrite Hlen. cbn [Z.of_nat Pos.of_succ_nat Pos.succ Z.eqb Pos.eqb].
      unfold level. cbn [app]. reflexivity. }
    repeat split.
    + rewrite Heq, Hlo. reflexivity.
    + rewrite <- Hlo. exact Hlo'.
    + intros Hnot. rewrite Heq.
      assert (E l <> RS l) by (intros Heq'; apply Hnot; left; now rewrite Heq').
      assert (~ In (E l) (DataPins l)) by (intros Hin; apply Hnot; now right).
      rewrite app_assoc, rises_app, rises_Write_prefix by assumption.
      rewrite !rises_app, !rises_present, !rises_enable by assumption.
      reflexivity.
Qed.

Lemma Write_protocol_witness :
  (List.length (DataPins example_display) = 4%nat
   /\ ~ In (E example_display) (RS example_display :: DataPins example_display)
   /\ rises (E example_display) (Write example_display 0xA5 RSData) = 2%nat)
  /\
  (List.length (DataPins wide_bus_display) = 8%nat
   /\ ~ In (E wide_bus_display) (RS wide_bus_display :: DataPins wide_bus_display)
   /\ rises (E wide_bus_display) (Write wide_bus_display 0xA5 RSData) = 1%nat).
Proof.
  assert (H4 : ~ In (E example_display)
                    (RS example_display :: DataPins example_display)).
  { cbn. intros H. repeat (destruct H as [H|H]; [discriminate H|]). exact H. }
  assert (H8 : ~ In (E wide_bus_display)
                    (RS wide_bus_display :: DataPins wide_bus_display)).
  { cbn. intros H. repeat (destruct H as [H|H]; [discriminate H|]). exact H. }
  split.
  - split; [reflexivity|]. split; [exact H4|].
    exact (proj2 (proj2 (proj2
             (proj1 (Write_protocol example_display 0xA5 RSData) eq_refl))) H4).
  - split; [reflexivity|]. split; [exact H8|].
    exact (proj2 (proj2
             (proj2 (Write_protocol wide_bus_display 0xA5 RSData) eq_refl)) H8).
Defined.

(** ** Timing *)

(** C4: [enable] waits the setup delay, raises E, waits the same delay,
    lowers E and waits [executionTime]; the delays are 1 microsecond (setup
    and hold), 40 microseconds (default execution), 1520 microseconds
    (return home), and [Initialize] ends with [Clear] followed by a sleep of
    10 milliseconds.  Durations are in nanoseconds. *)
Theorem enable_pulse_timing (l : LCD) (executionTime : Duration) :
  enable l executionTime
  = [Sleep EnableDelay; High (E l); Sleep EnableDelay; Low (E l);
     Sleep executionTime]
  /\ EnableDelay = 1000
  /\ ExecutionTimeDefault = 40000
  /\ ExecutionTimeReturnHome = 1520000
  /\ exists before, Initialize l = before ++ Clear l ++ [Sleep 10000000].
Proof.
  repeat split.
  exists (Reset l ++ EntryModeSet l true false ++ DisplayMode l true false false
          ++ Write l 0x28 RSInstruction ++ ReturnHome l).
  unfold Initialize. now rewrite <- !app_assoc.
Qed.

(** ** Start-up *)

(** C3, as the code has it: [Initialize] is, in this order: the two reset
    writes [0x33] and [0x32], each followed by the default execution delay;
    entry mode set with increment and without shift ([0x06]); display mode
    with display on, cursor and blink off ([0x0C]); the instruction write
    [0x28], which is a Function Set instruction and not, as the comment in
    the source has it, a Set DDRAM Address instruction; return home
    ([0x02]) followed by the return-home delay of 1520 microseconds; clear
    ([0x01]); a sleep of 10 milliseconds. *)
Theorem Initialize_sequence (l : LCD) :
  Initialize l
  = Reset l
    ++ EntryModeSet l true false
    ++ DisplayMode l true false false
    ++ Write l 0x28 RSInstruction
    ++ ReturnHome l
    ++ Clear l
    ++ [Sleep 10000000]
  /\ Reset l
     = Write l 0x33 RSInstruction ++ [Sleep 40000]
       ++ Write l 0x32 RSInstruction ++ [Sleep 40000]
  /\ EntryModeSet l true false = Write l 0x06 RSInstruction
  /\ DisplayMode l true false false = Write l 0x0C RSInstruction
  /\ ReturnHome l = Write l 0x02 RSInstruction ++ [Sleep 1520000]
  /\ Clear l = Write l 0x01 RSInstruction
  /\ Initialize l
     = Write l 0x33 RSInstruction ++ [Sleep 40000]
       ++ Write l 0x32 RSInstruction ++ [Sleep 40000]
       ++ Write l 0x06 RSInstruction
       ++ Write l 0x0C RSInstruction
       ++ Write l 0x28 RSInstruction
       ++ Write l 0x02 RSInstruction ++ [Sleep 1520000]
       ++ Write l 0x01 RSInstruction
       ++ [Sleep 10000000]
  /\ function_set 0x28 = true
  /\ set_DDRAM_address 0x28 = false
  /\ Forall (fun v => set_DDRAM_address v = false)
       [0x33; 0x32; 0x06; 0x0C; 0x28; 0x02; 0x01].
Proof.
  repeat split; try (repeat constructor).
  unfold Initialize, Reset, EntryModeSet, DisplayMode, ReturnHome, Clear.
  cbn [Z.lor Pos.lor]. rewrite <- !app_assoc. reflexivity.
Qed.

(** ** Custom characters *)

Lemma locks_Write m l data mode :
  locks m (Write l data mode) = if mutex_eqb m writelock then 1%nat else 0%nat.
Proof.
  unfold Write.
  assert (Hpresent : forall base, locks m (present l data base) = 0%nat).
  { intros base. unfold present, range.
    apply range_from_count; [apply locks_app|reflexivity|].
    intros j pin _. unfold setBitToPin. now destruct (_ =? _). }
  rewrite !locks_app, locks_map_Low.
  destruct (_ =? 4).
  - rewrite !locks_app, !Hpresent. destruct mode, m; reflexivity.
  - rewrite Hpresent. destruct mode, m; reflexivity.
Qed.

Lemma unlocks_Write m l data mode :
  unlocks m (Write l data mode) = if mutex_eqb m writelock then 1%nat else 0%nat.
Proof.
  unfold Write.
  assert (Hpresent : forall base, unlocks m (present l data base) = 0%nat).
  { intros base. unfold present, range.
    apply range_from_count; [apply unlocks_app|reflexivity|].
    intros j pin _. unfold setBitToPin. now destruct (_ =? _). }
  rewrite !unlocks_app, unlocks_map_Low.
  destruct (_ =? 4).
  - rewrite !unlocks_app, !Hpresent. destruct mode, m; reflexivity.
  - rewrite Hpresent. destruct mode, m; reflexivity.
Qed.

Lemma write_calls_Write l data mode : write_calls (Write l data mode) = 1%nat.
Proof. unfold write_calls. now rewrite locks_Write. Qed.

Lemma write_calls_app t u :
  write_calls (t ++ u) = (write_calls t + write_calls u)%nat.
Proof. apply locks_app. Qed.

Lemma write_calls_flat_map {A} (f : A -> trace) xs :
  (forall x, write_calls (f x) = 1%nat) ->
  write_calls (flat_map f xs) = List.length xs.
Proof.
  intros Hf. induction xs as [|x xs IH]; [reflexivity|].
  cbn [flat_map List.length]. now rewrite write_calls_app, Hf, IH.
Qed.

Lemma CGRAM_address position :
  0 <= position <= 7 -> Z.lor 0x40 (shl8 position 3) = 0x40 + 8 * position.
Proof.
  intros Hpos.
  assert (Hcases : position = 0 \/ position = 1 \/ position = 2 \/ position = 3
                   \/ position = 4 \/ position = 5 \/ position = 6
                   \/ position = 7) by lia.
  repeat (destruct Hcases as [->|Hcases]; [reflexivity|]). now subst.
Qed.

(** C5: for a position in 0..7, [CreateChar] performs one instruction write
    (the CGRAM address [0x40 + 8 * position]) followed by the eight rows of
    the glyph as data writes, nine writes in all; for a larger position it
    performs nothing at all. *)
Theorem CreateChar_writes (l : LCD) (position : Z) (data : Character) :
  (0 <= position <= 7 ->
   CreateChar l position data
   = Write l (0x40 + 8 * position) RSInstruction
     ++ Write l (row0 data) RSData ++ Write l (row1 data) RSData
     ++ Write l (row2 data) RSData ++ Write l (row3 data) RSData
     ++ Write l (row4 data) RSData ++ Write l (row5 data) RSData
     ++ Write l (row6 data) RSData ++ Write l (row7 data) RSData
   /\ write_calls (CreateChar l position data) = 9%nat)
  /\
  (7 < position -> CreateChar l position data = []).
Proof.
  split; intros Hpos.
  - assert (Heq : CreateChar l position data
                  = Write l (0x40 + 8 * position) RSInstruction
                    ++ flat_map (fun x => Write l x RSData) (rows data)).
    { unfold CreateChar. destruct (Z.ltb_spec 7 position); [lia|].
      now rewrite CGRAM_address. }
    split.
    + rewrite Heq. cbn [flat_map rows]. rewrite app_nil_r. reflexivity.
    + rewrite Heq, write_calls_app, write_calls_Write, write_calls_flat_map.
      * reflexivity.
      * intros x. apply write_calls_Write.
  - unfold CreateChar. destruct (Z.ltb_spec 7 position); [reflexivity|lia].
Qed.

Lemma CreateChar_writes_witness :
  (0 <= 5 <= 7
   /\ write_calls (CreateChar example_display 5 (mkCharacter 0 10 31 31 14 4 0 0))
      = 9%nat)
  /\ (7 < 8
      /\ CreateChar example_display 8 (mkCharacter 0 10 31 31 14 4 0 0) = []).
Proof.
  split.
  - split; [lia|].
    apply (proj1 (CreateChar_writes example_display 5
                    (mkCharacter 0 10 31 31 14 4 0 0))). lia.
  - split; [lia|].
    apply (proj2 (CreateChar_writes example_display 8
                    (mkCharacter 0 10 31 31 14 4 0 0))). lia.
Defined.

(** ** Construction *)

(** C6: with a data pin list whose length is neither 4 nor 8, [New] returns
    the pin-count error having performed nothing and left [rpioPrepared] as
    it was; with 4 or 8 data pins it never returns an error, and returns the
    display, its pins set to output, whenever the GPIO subsystem is already
    open or opens. *)
Theorem New_pin_count (gpio_ok : bool) (g : globals)
    (rs e : Z) (data : list Z) (linewidth : Z) :
  (List.length data <> 4%nat -> List.length data <> 8%nat ->
   New gpio_ok g rs e data linewidth
   = Ret (inr "LCD requires four or eight datapins"%string) g [])
  /\
  (List.length data = 4%nat \/ List.length data = 8%nat ->
   (forall msg g' t, New gpio_ok g rs e data linewidth <> Ret (inr msg) g' t)
   /\ (rpioPrepared g || gpio_ok = true ->
       exists t,
         New gpio_ok g rs e data linewidth
         = Ret (inl {| RS := uint8 rs; E := uint8 e;
                       DataPins := map uint8 data; LineWidth := linewidth |})
               {| rpioPrepared := true |}
               (t ++ [Output (uint8 rs); Output (uint8 e)]
                  ++ map Output (map uint8 data))
         /\ t = if rpioPrepared g then [] else [RpioOpen])).
Proof.
  unfold New. split.
  - intros H4 H8.
    destruct (Z.eqb_spec (Z.of_nat (List.length data)) 4); [lia|].
    destruct (Z.eqb_spec (Z.of_nat (List.length data)) 8); [lia|].
    reflexivity.
  - intros Hlen.
    assert (Hgate : negb (Z.of_nat (List.length data) =? 4)
                    && negb (Z.of_nat (List.length data) =? 8) = false).
    { destruct Hlen as [-> | ->]; reflexivity. }
    rewrite Hgate. unfold initPins, Open. cbn [RS E DataPins].
    destruct g as [prepared]. cbn [rpioPrepared].
    split.
    + intros msg g' t. destruct prepared; [discriminate|].
      destruct gpio_ok; discriminate.
    + intros Hopen. destruct prepared.
      * exists []. split; reflexivity.
      * cbn in Hopen. subst gpio_ok. exists [RpioOpen]. split; reflexivity.
Qed.

Lemma New_pin_count_witness :
  (List.length [6; 13; 19] <> 4%nat /\ List.length [6; 13; 19] <> 8%nat
   /\ New true {| rpioPrepared := false |} 10 9 [6; 13; 19] 16
      = Ret (inr "LCD requires four or eight datapins"%string)
            {| rpioPrepared := false |} [])
  /\
  ((List.length [6; 13; 19; 26] = 4%nat \/ List.length [6; 13; 19; 26] = 8%nat)
   /\ rpioPrepared {| rpioPrepared := false |} || true = true
   /\ exists t,
        New true {| rpioPrepared := false |} 10 9 [6; 13; 19; 26] 16
        = Ret (inl {| RS := uint8 10; E := uint8 9;
                      DataPins := map uint8 [6; 13; 19; 26]; LineWidth := 16 |})
              {| rpioPrepared := true |}
              (t ++ [Output (uint8 10); Output (uint8 9)]
                 ++ map Output (map uint8 [6; 13; 19; 26]))
        /\ t = if rpioPrepared {| rpioPrepared := false |}
               then [] else [RpioOpen]).
Proof.
  split.
  - split; [discriminate|]. split; [discriminate|].
    apply (proj1 (New_pin_count true {| rpioPrepared := false |}
                    10 9 [6; 13; 19] 16)); discriminate.
  - split; [left; reflexivity|]. split; [reflexivity|].
    apply (proj2 (New_pin_count true {| rpioPrepared := false |}
                    10 9 [6; 13; 19; 26] 16)); [left|]; reflexivity.
Defined.

(** ** Loading custom characters *)

Section CustomCharacters.
Context {T : Type} `{LCDI.t T}.

(** The loop of [SetCustomCharacters] from index [i] on, over the remaining
    entries [cs] of a list of [n] characters: entries with a negative
    offset are passed over, the others go to consecutive positions. *)
Lemma SetCustomCharacters_loop (l : T) (n : Z) (cs : list Character) : forall i,
  0 <= i -> i + Z.of_nat (List.length cs) = n ->
  range_from i
    (fun index chr =>
       let offset := 8 - n + index in
       if offset <? 0 then [] else LCDI.CreateChar l (uint8 offset) chr) cs
  = range_from (Z.max 0 (8 - n + i)) (LCDI.CreateChar l)
      (skipn (Z.to_nat (n - 8 - i)) cs).
Proof.
  induction cs as [|chr cs IH]; intros i Hi Hn.
  - now rewrite skipn_nil.
  - cbn [List.length] in Hn. cbn [range_from]. cbv zeta.
    rewrite IH by lia.
    destruct (Z.ltb_spec (8 - n + i) 0) as [Hneg|Hpos].
    + replace (Z.to_nat (n - 8 - i)) with (S (Z.to_nat (n - 8 - (i + 1)))) by lia.
      cbn [skipn app]. f_equal. lia.
    + replace (Z.to_nat (n - 8 - i)) with 0%nat by lia.
      replace (Z.to_nat (n - 8 - (i + 1))) with 0%nat by lia.
      cbn [skipn range_from]. rewrite uint8_small by lia.
      replace (Z.max 0 (8 - n + i)) with (8 - n + i) by lia.
      replace (Z.max 0 (8 - n + (i + 1))) with (8 - n + i + 1) by lia.
      reflexivity.
Qed.

(** C7, as the code has it: the entry at index [i] of [n] characters goes
    to position [8 - n + i] unless that offset is negative; with eight or
    fewer characters no offset is negative and every entry is written; with
    more than eight, the offsets of exactly the first [n - 8] entries are
    negative, those entries are passed over and the last eight go to
    positions 0..7. *)
Theorem SetCustomCharacters_positions (l : T) (characters : list Character) :
  let n := Z.of_nat (List.length characters) in
  (n <= 8 ->
   SetCustomCharacters l characters
   = range (fun i chr => LCDI.CreateChar l (8 - n + i) chr) characters)
  /\
  (8 < n ->
   SetCustomCharacters l characters
   = range (fun i chr => LCDI.CreateChar l i chr)
       (skipn (Z.to_nat (n - 8)) characters)
   /\ List.length (skipn (Z.to_nat (n - 8)) characters) = 8%nat)
  /\
  (forall i, 0 <= i < n -> (8 - n + i < 0 <-> i < n - 8)).
Proof.
  intros n.
  assert (Hloop : SetCustomCharacters l characters
                  = range_from (Z.max 0 (8 - n + 0)) (LCDI.CreateChar l)
                      (skipn (Z.to_nat (n - 8 - 0)) characters)).
  { unfold SetCustomCharacters, range.
    apply (SetCustomCharacters_loop l n characters 0); [lia|reflexivity]. }
  rewrite Z.add_0_r, Z.sub_0_r in Hloop.
  split; [|split].
  - intros Hle. unfold SetCustomCharacters, range. fold n.
    apply range_from_ext. intros j chr Hj. cbv zeta.
    destruct (Z.ltb_spec (8 - n + j) 0); [lia|].
    now rewrite uint8_small by lia.
  - intros Hgt. split.
    + rewrite Hloop. unfold range. f_equal. lia.
    + rewrite length_skipn. subst n. lia.
  - intros i Hi. lia.
Qed.

End CustomCharacters.

Lemma SetCustomCharacters_positions_witness :
  (Z.of_nat (List.length [glyph 1; glyph 2; glyph 3]) <= 8
   /\ SetCustomCharacters example_display [glyph 1; glyph 2; glyph 3]
      = range (fun i chr => CreateChar example_display (8 - 3 + i) chr)
          [glyph 1; glyph 2; glyph 3])
  /\
  (8 < Z.of_nat (List.length (map glyph [1; 2; 3; 4; 5; 6; 7; 8; 9]))
   /\ SetCustomCharacters example_display (map glyph [1; 2; 3; 4; 5; 6; 7; 8; 9])
      = range (fun i chr => CreateChar example_display i chr)
          (map glyph [2; 3; 4; 5; 6; 7; 8; 9])).
Proof.
  pose proof (SetCustomCharacters_positions example_display
                [glyph 1; glyph 2; glyph 3]) as Hfew.
  pose proof (SetCustomCharacters_positions example_display
                (map glyph [1; 2; 3; 4; 5; 6; 7; 8; 9])) as Hmany.
  cbv zeta in Hfew, Hmany.
  destruct Hfew as [Hfew _]. destruct Hmany as [_ [Hmany _]].
  split.
  - split; [cbn; lia|]. apply Hfew. cbn; lia.
  - split; [cbn; lia|]. apply Hmany. cbn; lia.
Defined.

(** With three characters, fewer than eight, no offset is negative and no
    entry is passed over: the three glyphs land in positions 5, 6 and 7,
    nine bus writes each. *)
Lemma SetCustomCharacters_three_glyphs :
  (List.length [glyph 1; glyph 2; glyph 3] < 8)%nat
  /\ (forall i, 0 <= i < 3 -> ~ 8 - 3 + i < 0)
  /\ SetCustomCharacters example_display [glyph 1; glyph 2; glyph 3]
     = CreateChar example_display 5 (glyph 1)
       ++ CreateChar example_display 6 (glyph 2)
       ++ CreateChar example_display 7 (glyph 3)
  /\ write_calls (SetCustomCharacters example_display [glyph 1; glyph 2; glyph 3])
     = 27%nat
  /\ ~ (forall characters : list Character,
          (List.length characters < 8)%nat ->
          exists i, 0 <= i < Z.of_nat (List.length characters)
                    /\ 8 - Z.of_nat (List.length characters) + i < 0).
Proof.
  split; [cbn; lia|]. split; [intros i Hi; lia|].
  split; [vm_compute; reflexivity|]. split; [vm_compute; reflexivity|].
  intros Hall. destruct (Hall [glyph 1]) as (i & Hi & Hneg); [cbn; lia|].
  change (Z.of_nat (List.length [glyph 1])) with 1 in Hi, Hneg. lia.
Qed.

(** ** Runes and bytes *)

(** The decoder on the encodings of U+00E9, U+20AC and U+1F600, on a lone
    leading byte, on an overlong encoding and on a surrogate. *)
Example runes_well_formed :
  utf8.runes [xc3; xa9; xe2; x82; xac; xf0; x9f; x98; x80]
  = [0xE9; 0x20AC; 0x1F600].
Proof. reflexivity. Qed.

Example runes_ill_formed :
  utf8.runes [xc3] = [utf8.RuneError]
  /\ utf8.runes [xc0; x80] = [utf8.RuneError; utf8.RuneError]
  /\ utf8.runes [xed; xa0; x80]
     = [utf8.RuneError; utf8.RuneError; utf8.RuneError].
Proof. repeat split. Qed.

Lemma byte_val_range b : 0 <= byte_val b < 256.
Proof.
  unfold byte_val. pose proof (Byte.to_N_bounded b) as Hb. lia.
Qed.

(** A string has at most as many runes as bytes. *)
Lemma runes_from_length s : forall skip,
  (List.length (utf8.runes_from skip s) <= List.length s)%nat.
Proof.
  induction s as [|b s IH]; intros skip; [apply Nat.le_refl|].
  cbn [utf8.runes_from]. destruct skip as [|k].
  - destruct (utf8.DecodeRuneInString (b :: s)) as [r size].
    cbn [List.length]. apply le_n_S, IH.
  - cbn [List.length]. apply Nat.le_le_succ_r, IH.
Qed.

Lemma RuneCountInString_le s :
  0 <= utf8.RuneCountInString s <= Z.of_nat (List.length s).
Proof.
  unfold utf8.RuneCountInString, utf8.runes.
  pose proof (runes_from_length s 0). lia.
Qed.

(** Text of one-byte runes decodes byte by byte. *)
Lemma runes_ascii s : ascii_only s -> utf8.runes s = map byte_val s.
Proof.
  unfold utf8.runes. induction 1 as [|b s Hb _ IH]; [reflexivity|].
  cbn [utf8.runes_from utf8.DecodeRuneInString map].
  unfold utf8.first. destruct (Z.ltb_spec (byte_val b) 0x80); [|lia].
  cbn [Nat.sub]. now rewrite IH.
Qed.

Lemma ascii_only_app s t : ascii_only s -> ascii_only t -> ascii_only (s ++ t).
Proof. unfold ascii_only. intros Hs Ht. apply Forall_app. now split. Qed.

Lemma ascii_only_spaces k : ascii_only (repeat fmt.space k).
Proof.
  unfold ascii_only. apply Forall_forall. intros b Hb.
  apply repeat_spec in Hb. subst b. reflexivity.
Qed.

Lemma ascii_only_firstn k s : ascii_only s -> ascii_only (firstn k s).
Proof.
  unfold ascii_only. intros Hs.
  rewrite <- (firstn_skipn k s) in Hs. now apply Forall_app in Hs.
Qed.

Lemma RuneCountInString_ascii s :
  ascii_only s -> utf8.RuneCountInString s = Z.of_nat (List.length s).
Proof.
  intros Hs. unfold utf8.RuneCountInString.
  now rewrite runes_ascii, length_map.
Qed.

(** ** Writing a line *)

Lemma fitted_length width s :
  0 <= width -> List.length (fitted width s) = Z.to_nat width.
Proof.
  intros Hw. unfold fitted. rewrite length_firstn, length_app, repeat_length.
  pose proof (RuneCountInString_le s). lia.
Qed.

(** On a display of non-negative width within the range of [fmt],
    [WriteLine] returns, and writes the fitted text. *)
Lemma WriteLine_returns l s line :
  0 <= LineWidth l <= fmt.widthLimit ->
  WriteLine l s line = Returns (line_write l (uint8 line) (fitted (LineWidth l) s)).
Proof.
  intros [Hw Hlimit]. unfold WriteLine, fmt.Sprintf_width, slice_to.
  rewrite Z.abs_eq by exact Hw.
  destruct (Z.leb_spec fmt.refusedFrom (LineWidth l)) as [Hrefused|_];
    [unfold fmt.refusedFrom, fmt.widthLimit in *; lia|].
  destruct (Z.ltb_spec (LineWidth l) 0) as [|_]; [lia|]. cbn [orb].
  destruct (Z.ltb_spec
              (Z.of_nat (List.length
                 (repeat fmt.space
                    (Z.to_nat (LineWidth l - utf8.RuneCountInString s)) ++ s)))
              (LineWidth l)) as [Hshort|_].
  - rewrite length_app, repeat_length in Hshort.
    pose proof (RuneCountInString_le s). lia.
  - reflexivity.
Qed.

(** A negative width makes the slice expression, and with it [WriteLine],
    panic before any bus write. *)
Lemma WriteLine_negative_width l s line :
  LineWidth l < 0 -> WriteLine l s line = Panics [Lock linelock; Unlock linelock].
Proof.
  intros Hw. unfold WriteLine, slice_to.
  destruct (Z.ltb_spec (LineWidth l) 0); [reflexivity|lia].
Qed.

Lemma write_calls_line_write l line text :
  write_calls (line_write l line text) = S (List.length (utf8.runes text)).
Proof.
  unfold line_write. rewrite !write_calls_app, write_calls_Write.
  rewrite write_calls_flat_map by (intros c; apply write_calls_Write).
  cbn. lia.
Qed.

Lemma data_writes_small l cs :
  Forall (fun c => 0 <= c < 256) cs ->
  flat_map (fun c => Write l (uint8 c) RSData) cs
  = flat_map (fun c => Write l c RSData) cs.
Proof.
  induction 1 as [|c cs Hc _ IH]; [reflexivity|].
  cbn [flat_map]. now rewrite IH, uint8_small.
Qed.

Lemma data_writes_ascii l text :
  ascii_only text ->
  flat_map (fun c => Write l (uint8 c) RSData) (utf8.runes text)
  = flat_map (fun b => Write l (byte_val b) RSData) text.
Proof.
  intros Htext. rewrite runes_ascii by exact Htext.
  rewrite data_writes_small.
  - now rewrite flat_map_concat_map, map_map, <- flat_map_concat_map.
  - apply Forall_forall. intros c Hc. apply in_map_iff in Hc.
    destruct Hc as (b & <- & _). apply byte_val_range.
Qed.

(** C1, as the code has it: on a display of width [w], [WriteLine] puts
    every text behind as many spaces as its rune count is short of [w] and
    cuts the result after [w] bytes; it performs, under [linelock], the
    instruction write of the line address followed by one data write per
    rune decoded from that text of exactly [w] bytes, never more than [w].
    For ASCII text this is the input padded on the left with spaces, or
    truncated, to exactly [w] characters, and exactly [w] data writes.  On
    a display of width 16, [Initialize] followed by
    [WriteLine("hi", Line1)] performs, after the start-up sequence, the
    instruction write [0x80] and sixteen data writes: fourteen spaces, [h],
    [i]. *)
Theorem WriteLine_fits_line (l : LCD) (s : gostring) (line : LineNumber) :
  (0 <= LineWidth l <= fmt.widthLimit -> 0 <= line < 256 ->
   exists text,
     text = firstn (Z.to_nat (LineWidth l))
              (repeat fmt.space
                 (Z.to_nat (LineWidth l - utf8.RuneCountInString s)) ++ s)
     /\ WriteLine l s line
        = Returns ([Lock linelock]
                   ++ Write l line RSInstruction
                   ++ flat_map (fun c => Write l (uint8 c) RSData) (utf8.runes text)
                   ++ [Unlock linelock])
     /\ Z.of_nat (List.length text) = LineWidth l
     /\ Z.of_nat (List.length (utf8.runes text)) <= LineWidth l
     /\ (LineWidth l <= utf8.RuneCountInString s ->
         text = firstn (Z.to_nat (LineWidth l)) s)
     /\ (ascii_only s ->
         (Z.of_nat (List.length s) <= LineWidth l ->
          text = repeat fmt.space (Z.to_nat (LineWidth l) - List.length s) ++ s)
         /\ (LineWidth l <= Z.of_nat (List.length s) ->
             text = firstn (Z.to_nat (LineWidth l)) s)
         /\ utf8.runes text = map byte_val text
         /\ Z.of_nat (List.length (utf8.runes text)) = LineWidth l
         /\ flat_map (fun c => Write l (uint8 c) RSData) (utf8.runes text)
            = flat_map (fun b => Write l (byte_val b) RSData) text))
  /\
  (LineWidth l = 16 ->
   Returns (Initialize l) ;; WriteLine l (gostr "hi") Line1
   = Returns (Initialize l
              ++ [Lock linelock]
              ++ Write l 0x80 RSInstruction
              ++ flat_map (fun c => Write l c RSData)
                   (repeat 0x20 14 ++ [0x68; 0x69])
              ++ [Unlock linelock])).
Proof.
  split.
  - intros Hw Hline. exists (fitted (LineWidth l) s).
    assert (Hlen := fitted_length (LineWidth l) s (proj1 Hw)).
    assert (Hmost := runes_from_length (fitted (LineWidth l) s) 0).
    fold (utf8.runes (fitted (LineWidth l) s)) in Hmost.
    assert (Hcut : LineWidth l <= utf8.RuneCountInString s ->
                   fitted (LineWidth l) s = firstn (Z.to_nat (LineWidth l)) s).
    { intros Hlong. unfold fitted.
      replace (Z.to_nat (LineWidth l - utf8.RuneCountInString s)) with 0%nat by lia.
      reflexivity. }
    split; [reflexivity|]. split; [|split; [|split; [|split]]].
    + rewrite WriteLine_returns by exact Hw. now rewrite uint8_small.
    + rewrite Hlen. lia.
    + lia.
    + exact Hcut.
    + intros Hs.
      assert (Htext : ascii_only (fitted (LineWidth l) s)).
      { apply ascii_only_firstn, ascii_only_app; [apply ascii_only_spaces|exact Hs]. }
      split; [|split; [|split; [|split]]].
      * intros Hfit. unfold fitted.
        rewrite RuneCountInString_ascii by exact Hs.
        replace (Z.to_nat (LineWidth l - Z.of_nat (List.length s)))
          with (Z.to_nat (LineWidth l) - List.length s)%nat by lia.
        apply firstn_all2. rewrite length_app, repeat_length. lia.
      * intros Hlong. apply Hcut.
        now rewrite RuneCountInString_ascii by exact Hs.
      * now apply runes_ascii.
      * rewrite runes_ascii, length_map by exact Htext. lia.
      * now apply data_writes_ascii.
  - intros H16. rewrite WriteLine_returns by (rewrite H16; unfold fmt.widthLimit; lia).
    rewrite H16. cbn [and_then]. unfold line_write.
    assert (Hrunes : utf8.runes (fitted 16 (gostr "hi"))
                     = repeat 0x20 14 ++ [0x68; 0x69]) by (vm_compute; reflexivity).
    rewrite Hrunes, data_writes_small.
    + reflexivity.
    + apply Forall_forall. intros c Hc. cbn [repeat app In] in Hc.
      repeat (destruct Hc as [<-|Hc]; [lia|]). contradiction.
Qed.

Lemma WriteLine_fits_line_witness :
  (0 <= LineWidth example_display <= fmt.widthLimit /\ 0 <= Line2 < 256)
  /\ LineWidth example_display = 16
  /\ (exists text,
        WriteLine example_display (gostr "git/PimvanHespen") Line2
        = Returns ([Lock linelock]
                   ++ Write example_display Line2 RSInstruction
                   ++ flat_map (fun c => Write example_display (uint8 c) RSData)
                        (utf8.runes text)
                   ++ [Unlock linelock])
        /\ Z.of_nat (List.length text) = LineWidth example_display)
  /\ Returns (Initialize example_display)
     ;; WriteLine example_display (gostr "hi") Line1
     = Returns (Initialize example_display
                ++ [Lock linelock]
                ++ Write example_display 0x80 RSInstruction
                ++ flat_map (fun c => Write example_display c RSData)
                     (repeat 0x20 14 ++ [0x68; 0x69])
                ++ [Unlock linelock]).
Proof.
  assert (Hw : 0 <= LineWidth example_display <= fmt.widthLimit)
    by (unfold fmt.widthLimit; cbn; lia).
  assert (Hline : 0 <= Line2 < 256) by (unfold Line2; lia).
  destruct (WriteLine_fits_line example_display (gostr "git/PimvanHespen") Line2)
    as [Hgeneral _].
  destruct (Hgeneral Hw Hline) as (text & _ & Hwrites & Hlen & _).
  split; [exact (conj Hw Hline)|]. split; [reflexivity|]. split.
  - exists text. exact (conj Hwrites Hlen).
  - exact (proj2 (WriteLine_fits_line example_display (gostr "hi") Line1) eq_refl).
Defined.

(** On three columns a text of two or three runes that holds a two-byte
    character does not fill the line: two U+00E9, two runes, get one space
    in front and lose the second character to the cut, and U+00E9 followed
    by [ab], three runes, loses the [b]; either way two data writes follow
    the address, not the three of the text padded or truncated to three
    characters. *)
Lemma WriteLine_short_of_three_columns :
  LineWidth narrow_display = 3
  /\ utf8.runes [xc3; xa9; xc3; xa9] = [0xE9; 0xE9]
  /\ WriteLine narrow_display [xc3; xa9; xc3; xa9] Line1
     = Returns ([Lock linelock]
                ++ Write narrow_display 0x80 RSInstruction
                ++ Write narrow_display 0x20 RSData
                ++ Write narrow_display 0xE9 RSData
                ++ [Unlock linelock])
  /\ WriteLine narrow_display [xc3; xa9; xc3; xa9] Line1
     <> Returns ([Lock linelock]
                 ++ Write narrow_display 0x80 RSInstruction
                 ++ flat_map (fun c => Write narrow_display c RSData)
                      [0x20; 0xE9; 0xE9]
                 ++ [Unlock linelock])
  /\ utf8.runes [xc3; xa9; x61; x62] = [0xE9; 0x61; 0x62]
  /\ WriteLine narrow_display [xc3; xa9; x61; x62] Line1
     = Returns ([Lock linelock]
                ++ Write narrow_display 0x80 RSInstruction
                ++ Write narrow_display 0xE9 RSData
                ++ Write narrow_display 0x61 RSData
                ++ [Unlock linelock])
  /\ WriteLine narrow_display [xc3; xa9; x61; x62] Line1
     <> Returns ([Lock linelock]
                 ++ Write narrow_display 0x80 RSInstruction
                 ++ flat_map (fun c => Write narrow_display c RSData)
                      [0xE9; 0x61; 0x62]
                 ++ [Unlock linelock])
  /\ write_calls (events (WriteLine narrow_display [xc3; xa9; xc3; xa9] Line1))
     = 3%nat
  /\ write_calls (events (WriteLine narrow_display [xc3; xa9; x61; x62] Line1))
     = 3%nat.
Proof.
  split; [reflexivity|]. split; [reflexivity|].
  split; [vm_compute; reflexivity|]. split; [vm_compute; discriminate|].
  split; [reflexivity|]. split; [vm_compute; reflexivity|].
  split; [vm_compute; discriminate|]. split; vm_compute; reflexivity.
Qed.

(** ** Bytes against runes *)

Lemma runes_ascii_app s t :
  ascii_only s -> utf8.runes (s ++ t) = map byte_val s ++ utf8.runes t.
Proof.
  unfold utf8.runes. induction 1 as [|b s Hb _ IH]; [reflexivity|].
  cbn [app utf8.runes_from utf8.DecodeRuneInString map].
  unfold utf8.first. destruct (Z.ltb_spec (byte_val b) 0x80); [|lia].
  cbn [Nat.sub]. now rewrite IH.
Qed.

Lemma ascii_only_repeat_a k : ascii_only (repeat x61 k).
Proof.
  unfold ascii_only. apply Forall_forall. intros b Hb.
  apply repeat_spec in Hb. subst b. reflexivity.
Qed.

(** The two bytes of U+00E9 in front of any text decode to one rune. *)
Lemma runes_e_acute t : utf8.runes (xc3 :: xa9 :: t) = 0xE9 :: utf8.runes t.
Proof. reflexivity. Qed.

Lemma firstn_app_exact {A} (s t : list A) : firstn (List.length s) (s ++ t) = s.
Proof.
  rewrite firstn_app, Nat.sub_diag, firstn_all. cbn. apply app_nil_r.
Qed.

(** C9, as the code has it: padding counts runes and cutting counts bytes.
    The written text is the input behind as many spaces as its rune count is
    short of the width, cut after width bytes; it is the first width bytes
    of the input whenever the input has at least width runes.  The data
    writes never outnumber the width; from width 2 on some input yields
    fewer data writes than the width, and from width 1 on some input free of
    decoding errors is cut inside a character, which then decodes to the
    error rune. *)
Theorem WriteLine_cuts_bytes (l : LCD) (s : gostring) (line : LineNumber) :
  0 <= LineWidth l <= fmt.widthLimit ->
  WriteLine l s line
  = Returns ([Lock linelock]
             ++ Write l (uint8 line) RSInstruction
             ++ flat_map (fun c => Write l (uint8 c) RSData)
                  (utf8.runes (fitted (LineWidth l) s))
             ++ [Unlock linelock])
  /\ fitted (LineWidth l) s
     = firstn (Z.to_nat (LineWidth l))
         (repeat fmt.space (Z.to_nat (LineWidth l) - List.length (utf8.runes s)) ++ s)
  /\ Z.of_nat (List.length (fitted (LineWidth l) s)) = LineWidth l
  /\ (LineWidth l <= utf8.RuneCountInString s ->
      fitted (LineWidth l) s = firstn (Z.to_nat (LineWidth l)) s)
  /\ (List.length (utf8.runes (fitted (LineWidth l) s)) <= Z.to_nat (LineWidth l))%nat
  /\ (2 <= LineWidth l ->
      exists s',
        fitted (LineWidth l) s' = firstn (Z.to_nat (LineWidth l)) s'
        /\ (List.length (utf8.runes (fitted (LineWidth l) s'))
            < Z.to_nat (LineWidth l))%nat)
  /\ (1 <= LineWidth l ->
      exists s',
        ~ In utf8.RuneError (utf8.runes s')
        /\ fitted (LineWidth l) s' = firstn (Z.to_nat (LineWidth l)) s'
        /\ In utf8.RuneError (utf8.runes (fitted (LineWidth l) s'))).
Proof.
  intros Hw.
  assert (Hlen := fitted_length (LineWidth l) s (proj1 Hw)).
  assert (Hcut : forall s', LineWidth l <= utf8.RuneCountInString s' ->
                 fitted (LineWidth l) s' = firstn (Z.to_nat (LineWidth l)) s').
  { intros s' Hlong. unfold fitted.
    replace (Z.to_nat (LineWidth l - utf8.RuneCountInString s')) with 0%nat by lia.
    reflexivity. }
  split; [now apply WriteLine_returns|].
  split.
  { unfold fitted, utf8.RuneCountInString. do 2 f_equal. f_equal. lia. }
  split; [lia|]. split; [apply Hcut|]. split.
  { rewrite <- Hlen. apply (runes_from_length _ 0%nat). }
  split.
  - intros H2. set (w := Z.to_nat (LineWidth l)).
    assert (Hw2 : w = S (S (w - 2))) by lia.
    exists (xc3 :: xa9 :: repeat x61 (w - 1)).
    assert (Hlong : LineWidth l
                    <= utf8.RuneCountInString (xc3 :: xa9 :: repeat x61 (w - 1))).
    { unfold utf8.RuneCountInString.
      rewrite runes_e_acute, runes_ascii by apply ascii_only_repeat_a.
      cbn [List.length]. rewrite length_map, repeat_length. lia. }
    split; [apply Hcut, Hlong|].
    rewrite (Hcut _ Hlong). fold w. rewrite Hw2 at 1. cbn [firstn].
    replace (w - 1)%nat with ((w - 2) + 1)%nat by lia.
    rewrite repeat_app. rewrite <- (repeat_length x61 (w - 2)) at 1.
    rewrite firstn_app_exact.
    rewrite runes_e_acute, runes_ascii by apply ascii_only_repeat_a.
    cbn [List.length]. rewrite length_map, repeat_length. lia.
  - intros H1. set (w := Z.to_nat (LineWidth l)).
    exists (repeat x61 (w - 1) ++ [xc3; xa9]).
    assert (Hrunes : utf8.runes (repeat x61 (w - 1) ++ [xc3; xa9])
                     = map byte_val (repeat x61 (w - 1)) ++ [0xE9]).
    { now rewrite runes_ascii_app by apply ascii_only_repeat_a. }
    assert (Hlong : LineWidth l
                    <= utf8.RuneCountInString (repeat x61 (w - 1) ++ [xc3; xa9])).
    { unfold utf8.RuneCountInString. rewrite Hrunes.
      rewrite length_app, length_map, repeat_length. cbn [List.length]. lia. }
    split; [|split; [apply Hcut, Hlong|]].
    + rewrite Hrunes. intros Hin. apply in_app_or in Hin.
      destruct Hin as [Hin|[Hin|[]]]; [|discriminate Hin].
      apply in_map_iff in Hin. destruct Hin as (b & Hb & _).
      pose proof (byte_val_range b). unfold utf8.RuneError in Hb. lia.
    + rewrite (Hcut _ Hlong). fold w.
      change [xc3; xa9] with ([xc3] ++ [xa9]). rewrite app_assoc.
      replace w with (List.length (repeat x61 (w - 1) ++ [xc3])) at 1
        by (rewrite length_app, repeat_length; cbn; lia).
      rewrite firstn_app_exact, runes_ascii_app by apply ascii_only_repeat_a.
      apply in_or_app. right. left. reflexivity.
Qed.

Lemma WriteLine_cuts_bytes_witness :
  0 <= LineWidth narrow_display <= fmt.widthLimit
  /\ WriteLine narrow_display [xc3; xa9; x61; x62] Line1
     = Returns ([Lock linelock]
                ++ Write narrow_display (uint8 Line1) RSInstruction
                ++ flat_map (fun c => Write narrow_display (uint8 c) RSData)
                     (utf8.runes
                        (fitted (LineWidth narrow_display) [xc3; xa9; x61; x62]))
                ++ [Unlock linelock])
  /\ (List.length (utf8.runes
                     (fitted (LineWidth narrow_display) [xc3; xa9; x61; x62]))
      <= Z.to_nat (LineWidth narrow_display))%nat.
Proof.
  assert (Hw : 0 <= LineWidth narrow_display <= fmt.widthLimit)
    by (unfold fmt.widthLimit; cbn; lia).
  destruct (WriteLine_cuts_bytes narrow_display [xc3; xa9; x61; x62] Line1 Hw)
    as (Hwrites & _ & _ & _ & Hcount & _).
  split; [exact Hw|]. split; [exact Hwrites|exact Hcount].
Defined.

(** On three columns the four bytes of two U+00E9 do not lose their last
    byte: the text has two runes, so one space goes in front, and the cut
    after three bytes keeps the space and the first U+00E9, not the first
    three bytes of the input. *)
Lemma WriteLine_two_e_acute :
  LineWidth narrow_display < Z.of_nat (List.length [xc3; xa9; xc3; xa9])
  /\ slice_to (fmt.Sprintf_width (LineWidth narrow_display) [xc3; xa9; xc3; xa9])
       (LineWidth narrow_display)
     = Some [x20; xc3; xa9]
  /\ firstn 3 [xc3; xa9; xc3; xa9] = [xc3; xa9; xc3]
  /\ WriteLine narrow_display [xc3; xa9; xc3; xa9] Line1
     = Returns ([Lock linelock]
                ++ Write narrow_display 0x80 RSInstruction
                ++ Write narrow_display 0x20 RSData
                ++ Write narrow_display 0xE9 RSData
                ++ [Unlock linelock])
  /\ WriteLine narrow_display [xc3; xa9; xc3; xa9] Line1
     <> Returns ([Lock linelock]
                 ++ Write narrow_display 0x80 RSInstruction
                 ++ flat_map (fun c => Write narrow_display (uint8 c) RSData)
                      (utf8.runes (firstn 3 [xc3; xa9; xc3; xa9]))
                 ++ [Unlock linelock]).
Proof.
  split; [cbn; lia|]. split; [reflexivity|]. split; [reflexivity|].
  split; [vm_compute; reflexivity|].
  vm_compute. discriminate.
Qed.

(** ** Animating a line *)

Lemma locks_flat_map_zero {X} m (f : X -> trace) xs :
  (forall x, locks m (f x) = 0%nat) -> locks m (flat_map f xs) = 0%nat.
Proof.
  intros Hf. induction xs as [|x xs IH]; [reflexivity|].
  cbn [flat_map]. now rewrite locks_app, Hf, IH.
Qed.

Lemma unlocks_flat_map_zero {X} m (f : X -> trace) xs :
  (forall x, unlocks m (f x) = 0%nat) -> unlocks m (flat_map f xs) = 0%nat.
Proof.
  intros Hf. induction xs as [|x xs IH]; [reflexivity|].
  cbn [flat_map]. now rewrite unlocks_app, Hf, IH.
Qed.

(** A line write touches [linelock] and [writelock] only. *)
Lemma line_write_line_mutexes l line text m :
  m = line1 \/ m = line2 ->
  locks m (line_write l line text) = 0%nat
  /\ unlocks m (line_write l line text) = 0%nat.
Proof.
  intros Hm. unfold line_write. split.
  - rewrite !locks_app, locks_Write, locks_flat_map_zero.
    + destruct Hm; subst m; reflexivity.
    + intros c. rewrite locks_Write. destruct Hm; subst m; reflexivity.
  - rewrite !unlocks_app, unlocks_Write, unlocks_flat_map_zero.
    + destruct Hm; subst m; reflexivity.
    + intros c. rewrite unlocks_Write. destruct Hm; subst m; reflexivity.
Qed.

Section AnimateProperties.
Context {A : Type} `{animations.Animation A}.

Lemma drive_frames (l : LCD) (line : LineNumber) :
  0 <= LineWidth l <= fmt.widthLimit ->
  forall fuel (animation : A),
    synchronized.drive fuel {| synchronized.lcd := l |} animation line
    = (if done_within fuel animation
       then synchronized.Finished else synchronized.Running)
        (flat_map (frame_events l line) (frames fuel animation)).
Proof.
  intros Hw. induction fuel as [|fuel IH]; intros animation; [reflexivity|].
  cbn [synchronized.drive frames done_within].
  destruct (animations.Done animation) as [[|] a1]; [reflexivity|].
  destruct (animations.Content a1) as [s a2].
  cbn [synchronized.lcd LCDI.WriteLine LCD_LCDI].
  rewrite WriteLine_returns by exact Hw. rewrite IH.
  cbn [flat_map]. unfold frame_events at 2.
  destruct (done_within fuel (animations.Delay a2)); reflexivity.
Qed.

End AnimateProperties.

Section AnimateOtherLine.
Context {A : Type} `{animations.Animation A}.

(** C10: for a line value other than [Line1] and [Line2], [Animate] locks
    nothing before it returns, and its goroutine, which neither locks nor
    unlocks [line1] or [line2], still tells the animation the width and
    then, for each frame, writes the line with that value as the address
    instruction and waits, sending on the channel once the animation is
    done.  [Animate] locks a per-line mutex before returning for exactly
    the values [Line1] and [Line2]. *)
Theorem Animate_other_line (l : LCD) (animation : A) (line : LineNumber) :
  0 <= line < 256 -> line <> Line1 -> line <> Line2 ->
  0 <= LineWidth l <= fmt.widthLimit ->
  fst (synchronized.Animate {| synchronized.lcd := l |} animation line) = []
  /\ (forall fuel,
        let started := animations.Width (LineWidth l) animation in
        let task := snd (synchronized.Animate {| synchronized.lcd := l |}
                           animation line) fuel in
        task
        = (if done_within fuel started
           then synchronized.Finished else synchronized.Running)
            ([AnimationWidth (LineWidth l)]
             ++ flat_map
                  (fun s =>
                     ([Lock linelock]
                      ++ Write l line RSInstruction
                      ++ flat_map (fun c => Write l (uint8 c) RSData)
                           (utf8.runes (fitted (LineWidth l) s))
                      ++ [Unlock linelock])
                     ++ [AnimationDelay])
                  (frames fuel started)
             ++ (if done_within fuel started then [SendDone] else []))
        /\ locks line1 (synchronized.task_trace task) = 0%nat
        /\ unlocks line1 (synchronized.task_trace task) = 0%nat
        /\ locks line2 (synchronized.task_trace task) = 0%nat
        /\ unlocks line2 (synchronized.task_trace task) = 0%nat)
  /\ (forall line',
        fst (synchronized.Animate {| synchronized.lcd := l |} animation line')
        <> []
        <-> line' = Line1 \/ line' = Line2).
Proof.
  intros Hline H1 H2 Hw.
  assert (Hlock : synchronized.lock_line line = []).
  { unfold synchronized.lock_line.
    destruct (Z.eqb_spec line Line1); [contradiction|].
    destruct (Z.eqb_spec line Line2); [contradiction|reflexivity]. }
  assert (Hunlock : synchronized.unlock_line line = []).
  { unfold synchronized.unlock_line.
    destruct (Z.eqb_spec line Line1); [contradiction|].
    destruct (Z.eqb_spec line Line2); [contradiction|reflexivity]. }
  split; [exact Hlock|]. split.
  - intros fuel started task.
    assert (Htask : task
                    = (if done_within fuel started
                       then synchronized.Finished else synchronized.Running)
                        ([AnimationWidth (LineWidth l)]
                         ++ flat_map (frame_events l line) (frames fuel started)
                         ++ (if done_within fuel started then [SendDone] else []))).
    { subst task. cbn [snd synchronized.Animate].
      unfold synchronized.goroutine.
      cbn [synchronized.lcd LCDI.Width LCD_LCDI]. unfold Width. fold started.
      rewrite drive_frames by exact Hw. rewrite Hunlock.
      destruct (done_within fuel started); cbn [synchronized.after app].
      - reflexivity.
      - now rewrite app_nil_r. }
    assert (Hframe : forall m, m = line1 \/ m = line2 ->
              locks m (synchronized.task_trace task) = 0%nat
              /\ unlocks m (synchronized.task_trace task) = 0%nat).
    { intros m Hm. rewrite Htask.
      assert (Hflat : locks m (flat_map (frame_events l line) (frames fuel started)) = 0%nat
                      /\ unlocks m (flat_map (frame_events l line) (frames fuel started)) = 0%nat).
      { split.
        - apply locks_flat_map_zero. intros s. unfold frame_events.
          rewrite locks_app. now rewrite (proj1 (line_write_line_mutexes _ _ _ m Hm)).
        - apply unlocks_flat_map_zero. intros s. unfold frame_events.
          rewrite unlocks_app. now rewrite (proj2 (line_write_line_mutexes _ _ _ m Hm)). }
      destruct Hflat as [Hl Hu].
      destruct (done_within fuel started); cbn [synchronized.task_trace];
        rewrite !locks_app, !unlocks_app, Hl, Hu; split; reflexivity. }
    split.
    + rewrite Htask. unfold frame_events, line_write.
      now rewrite uint8_small by exact Hline.
    + destruct (Hframe line1 (or_introl eq_refl)) as [? ?].
      destruct (Hframe line2 (or_intror eq_refl)) as [? ?].
      repeat split; assumption.
  - intros line'. cbn [fst synchronized.Animate]. unfold synchronized.lock_line.
    destruct (Z.eqb_spec line' Line1) as [->|Hn1].
    + split; [now left|discriminate].
    + destruct (Z.eqb_spec line' Line2) as [->|Hn2].
      * split; [now right|discriminate].
      * split; [intros Habs; now contradiction Habs|].
        intros [?|?]; contradiction.
Qed.

End AnimateOtherLine.

Lemma Animate_other_line_witness :
  (0 <= 0x94 < 256 /\ 0x94 <> Line1 /\ 0x94 <> Line2
   /\ 0 <= LineWidth example_display <= fmt.widthLimit)
  /\ fst (synchronized.Animate {| synchronized.lcd := example_display |}
            {| text := gostr "hi"; remaining := 3 |} 0x94) = []
  /\ locks line1
       (synchronized.task_trace
          (snd (synchronized.Animate {| synchronized.lcd := example_display |}
                  {| text := gostr "hi"; remaining := 3 |} 0x94) 5%nat)) = 0%nat.
Proof.
  assert (Hline : 0 <= 0x94 < 256) by lia.
  assert (H1 : 0x94 <> Line1) by discriminate.
  assert (H2 : 0x94 <> Line2) by discriminate.
  assert (Hw : 0 <= LineWidth example_display <= fmt.widthLimit)
    by (unfold fmt.widthLimit; cbn; lia).
  destruct (Animate_other_line example_display
              {| text := gostr "hi"; remaining := 3 |} 0x94 Hline H1 H2 Hw)
    as (Hsync & Htask & _).
  split; [exact (conj Hline (conj H1 (conj H2 Hw)))|].
  split; [exact Hsync|].
  exact (proj1 (proj2 (Htask 5%nat))).
Defined.

(** On [Line1] and [Line2] the call itself takes the mutex of the line, and
    a goroutine that sees the animation done releases that mutex and sends
    on the channel as its last two steps. *)
Lemma Animate_locked_line {A : Type} `{animations.Animation A}
    (l : LCD) (animation : A) (line : LineNumber) :
  0 <= LineWidth l <= fmt.widthLimit ->
  forall m, (line = Line1 /\ m = line1) \/ (line = Line2 /\ m = line2) ->
  fst (synchronized.Animate {| synchronized.lcd := l |} animation line) = [Lock m]
  /\ forall fuel,
       done_within fuel (animations.Width (LineWidth l) animation) = true ->
       snd (synchronized.Animate {| synchronized.lcd := l |} animation line) fuel
       = synchronized.Finished
           ([AnimationWidth (LineWidth l)]
            ++ flat_map (frame_events l line)
                 (frames fuel (animations.Width (LineWidth l) animation))
            ++ [Unlock m; SendDone]).
Proof.
  intros Hw m Hm. split.
  - destruct Hm as [[-> ->]|[-> ->]]; reflexivity.
  - intros fuel Hdone. cbn [snd synchronized.Animate].
    unfold synchronized.goroutine.
    cbn [synchronized.lcd LCDI.Width LCD_LCDI]. unfold Width.
    rewrite drive_frames by exact Hw. rewrite Hdone.
    cbn [synchronized.after]. destruct Hm as [[-> ->]|[-> ->]]; reflexivity.
Qed.

(** * Further properties of the driver *)

(** ** The bus write on any number of data pins *)

(** The mask [0x01 << uint8(i)] in [uint8]: a single bit for the indices
    whose low eight bits are below 8, zero for all others. *)
Lemma shl8_one i :
  0 <= i ->
  shl8 1 i = if i mod 256 <? 8 then 2 ^ (i mod 256) else 0.
Proof.
  intros Hi. unfold shl8, uint8.
  assert (Hk : 0 <= i mod 256 < 256) by (apply Z.mod_pos_bound; lia).
  set (k := i mod 256) in *. rewrite Z.shiftl_1_l.
  destruct (Z.ltb_spec k 8) as [Hlow|Hhigh].
  - apply Z.mod_small. split; [apply Z.pow_nonneg; lia|].
    change 256 with (2 ^ 8). apply Z.pow_lt_mono_r; lia.
  - replace k with (8 + (k - 8)) by lia. rewrite Z.pow_add_r by lia.
    change (2 ^ 8) with 256. rewrite Z.mul_comm. apply Z.mod_mul. lia.
Qed.

Lemma setBitToPin_zero pin data : setBitToPin pin data 0 = [High pin].
Proof. unfold setBitToPin. now rewrite Z.land_0_r. Qed.

Lemma present_low_nibble_any l data :
  present l data 0x01
  = range (fun i pin =>
             if i mod 256 <? 8
             then [level pin (Z.testbit data (i mod 256))]
             else [High pin]) (DataPins l).
Proof.
  unfold present, range. apply range_from_ext. intros j pin Hj.
  rewrite shl8_one by lia.
  assert (Hk : 0 <= j mod 256 < 256) by (apply Z.mod_pos_bound; lia).
  destruct (Z.ltb_spec (j mod 256) 8).
  - apply setBitToPin_testbit. lia.
  - apply setBitToPin_zero.
Qed.

(** X1: on a display whose number of data pins is not 4, whatever it is,
    [Write] takes the single-pulse path: RS from [mode], all data pins low,
    then pin [i] receives bit [i mod 256] of [data] when that index is below
    8 and is driven high otherwise, and enable is pulsed exactly once. *)
Theorem Write_not_four_pins (l : LCD) (data : Z) (mode : bool) :
  List.length (DataPins l) <> 4%nat ->
  Write l data mode
  = [Lock writelock; level (RS l) mode]
    ++ map Low (DataPins l)
    ++ range (fun i pin =>
                if i mod 256 <? 8
                then [level pin (Z.testbit data (i mod 256))]
                else [High pin]) (DataPins l)
    ++ enable l ExecutionTimeDefault
    ++ [Unlock writelock]
  /\ (~ In (E l) (RS l :: DataPins l) ->
      rises (E l) (Write l data mode) = 1%nat).
Proof.
  intros Hlen.
  assert (Heq : Write l data mode
                = [Lock writelock; level (RS l) mode] ++ map Low (DataPins l)
                  ++ present l data 0x01 ++ enable l ExecutionTimeDefault
                  ++ [Unlock writelock]).
  { unfold Write. destruct (Z.eqb_spec (Z.of_nat (List.length (DataPins l))) 4); [lia|].
    unfold level. reflexivity. }
  split.
  - rewrite Heq. now rewrite present_low_nibble_any.
  - intros Hnot. rewrite Heq.
    assert (E l <> RS l) by (intros Heq'; apply Hnot; left; now rewrite Heq').
    assert (~ In (E l) (DataPins l)) by (intros Hin; apply Hnot; now right).
    rewrite app_assoc, rises_app, rises_Write_prefix by assumption.
    rewrite !rises_app, !rises_present, !rises_enable by assumption.
    reflexivity.
Qed.

Lemma Write_not_four_pins_witness :
  List.length (DataPins (mkLCD 10 9 [6; 13; 19; 26; 5; 11; 12; 16; 20; 21] 16))
  <> 4%nat
  /\ Write (mkLCD 10 9 [6; 13; 19; 26; 5; 11; 12; 16; 20; 21] 16) 0 RSData
     = [Lock writelock; High 10]
       ++ map Low [6; 13; 19; 26; 5; 11; 12; 16; 20; 21]
       ++ map Low [6; 13; 19; 26; 5; 11; 12; 16] ++ [High 20; High 21]
       ++ enable (mkLCD 10 9 [6; 13; 19; 26; 5; 11; 12; 16; 20; 21] 16)
            ExecutionTimeDefault
       ++ [Unlock writelock].
Proof.
  assert (Hlen : List.length
                   (DataPins (mkLCD 10 9 [6; 13; 19; 26; 5; 11; 12; 16; 20; 21] 16))
                 <> 4%nat) by discriminate.
  split; [exact Hlen|].
  rewrite (proj1 (Write_not_four_pins _ 0 RSData Hlen)). reflexivity.
Defined.

(** ** The bus write loses nothing *)

Lemma app_same_length {X} (a a' b b' : list X) :
  List.length a = List.length a' -> a ++ b = a' ++ b' -> a = a' /\ b = b'.
Proof.
  revert a'. induction a as [|x a IH]; intros [|x' a'] Hlen Heq;
    try discriminate Hlen.
  - now split.
  - cbn in Heq. injection Heq as -> Heq. injection Hlen as Hlen.
    destruct (IH a' Hlen Heq) as [-> ->]. now split.
Qed.

Lemma level_inj p b b' : level p b = level p b' -> b = b'.
Proof. destruct b, b'; cbn; intros Heq; congruence. Qed.

Lemma range_levels_length (f : Z -> bool) (pins : list Pin) : forall i,
  List.length (range_from i (fun j p => [level p (f j)]) pins) = List.length pins.
Proof.
  induction pins as [|p pins IH]; intros i; [reflexivity|].
  cbn [range_from app List.length]. now rewrite IH.
Qed.

Lemma range_levels_inj (f g : Z -> bool) (pins : list Pin) : forall i,
  range_from i (fun j p => [level p (f j)]) pins
  = range_from i (fun j p => [level p (g j)]) pins ->
  forall j, i <= j < i + Z.of_nat (List.length pins) -> f j = g j.
Proof.
  induction pins as [|p pins IH]; intros i Heq j Hj; [cbn in Hj; lia|].
  cbn [range_from app] in Heq. injection Heq as Hhead Htail.
  apply level_inj in Hhead. cbn [List.length] in Hj.
  destruct (Z.eq_dec j i) as [->|Hne]; [exact Hhead|].
  apply (IH (i + 1) Htail). lia.
Qed.

Lemma byte_from_bits d d' :
  0 <= d < 256 -> 0 <= d' < 256 ->
  (forall k, 0 <= k < 8 -> Z.testbit d k = Z.testbit d' k) -> d = d'.
Proof.
  intros Hd Hd' Hbits.
  rewrite <- (Z.mod_small d 256), <- (Z.mod_small d' 256) by assumption.
  change 256 with (2 ^ 8). apply Z.bits_inj'. intros k Hk.
  destruct (Z.ltb_spec k 8).
  - rewrite !Z.mod_pow2_bits_low by lia. apply Hbits. lia.
  - now rewrite !Z.mod_pow2_bits_high by lia.
Qed.

(** The pin sequence of a bus write on four or eight data pins determines
    the byte written. *)
Lemma Write_determines_byte l d d' m m' :
  List.length (DataPins l) = 4%nat \/ List.length (DataPins l) = 8%nat ->
  0 <= d < 256 -> 0 <= d' < 256 ->
  Write l d m = Write l d' m' -> d = d'.
Proof.
  intros Hlen Hd Hd' Heq. apply byte_from_bits; [assumption..|].
  unfold Write in Heq. cbn [app] in Heq.
  injection Heq as _ Heq. apply app_inv_head in Heq.
  destruct Hlen as [Hlen|Hlen].
  - destruct (present_bits l d 4) as [_ Hhi]; [lia|rewrite Hlen; cbn; lia|].
    destruct (present_bits l d 0) as [_ Hlo]; [lia|rewrite Hlen; cbn; lia|].
    destruct (present_bits l d' 4) as [_ Hhi']; [lia|rewrite Hlen; cbn; lia|].
    destruct (present_bits l d' 0) as [_ Hlo']; [lia|rewrite Hlen; cbn; lia|].
    change (2 ^ 4) with 16 in Hhi, Hhi'. change (2 ^ 0) with 1 in Hlo, Hlo'.
    rewrite Hlen in Heq. cbn [Z.of_nat Pos.of_succ_nat Pos.succ Z.eqb Pos.eqb] in Heq.
    rewrite <- !app_assoc, Hhi, Hhi', Hlo, Hlo' in Heq. unfold range in Heq.
    apply app_same_length in Heq; [|now rewrite !range_levels_length].
    destruct Heq as [Hhigh Heq]. unfold enable in Heq. cbn [app] in Heq.
    injection Heq as Heq.
    apply app_same_length in Heq; [|now rewrite !range_levels_length].
    destruct Heq as [Hlow _].
    intros k Hk. destruct (Z.ltb_spec k 4).
    + apply (range_levels_inj (fun j => Z.testbit d (0 + j))
               (fun j => Z.testbit d' (0 + j)) _ 0 Hlow k).
      rewrite Hlen. cbn. lia.
    + replace k with (4 + (k - 4)) by lia.
      apply (range_levels_inj (fun j => Z.testbit d (4 + j))
               (fun j => Z.testbit d' (4 + j)) _ 0 Hhigh (k - 4)).
      rewrite Hlen. cbn. lia.
  - destruct (present_bits l d 0) as [_ Hlo]; [lia|rewrite Hlen; cbn; lia|].
    destruct (present_bits l d' 0) as [_ Hlo']; [lia|rewrite Hlen; cbn; lia|].
    change (2 ^ 0) with 1 in Hlo, Hlo'.
    rewrite Hlen in Heq. cbn [Z.of_nat Pos.of_succ_nat Pos.succ Z.eqb Pos.eqb] in Heq.
    rewrite Hlo, Hlo' in Heq. unfold range in Heq.
    apply app_same_length in Heq; [|now rewrite !range_levels_length].
    destruct Heq as [Hlow _].
    intros k Hk.
    apply (range_levels_inj (fun j => Z.testbit d (0 + j))
             (fun j => Z.testbit d' (0 + j)) _ 0 Hlow k).
    rewrite Hlen. cbn. lia.
Qed.

Lemma Write_determines_mode l d d' m m' : Write l d m = Write l d' m' -> m = m'.
Proof.
  unfold Write. cbn [app]. intros Heq. injection Heq as Hrs _.
  destruct m, m'; congruence.
Qed.

(** X2: on a display with four or eight data pins, two bus writes perform
    the same events only if they write the same byte in the same mode. *)
Theorem Write_injective (l : LCD) (d d' : Z) (m m' : bool) :
  List.length (DataPins l) = 4%nat \/ List.length (DataPins l) = 8%nat ->
  0 <= d < 256 -> 0 <= d' < 256 ->
  Write l d m = Write l d' m' -> d = d' /\ m = m'.
Proof.
  intros Hlen Hd Hd' Heq. split.
  - exact (Write_determines_byte l d d' m m' Hlen Hd Hd' Heq).
  - exact (Write_determines_mode l d d' m m' Heq).
Qed.

Lemma Write_injective_witness :
  (List.length (DataPins example_display) = 4%nat
   \/ List.length (DataPins example_display) = 8%nat)
  /\ 0 <= 0x41 < 256
  /\ Write example_display 0x41 RSData = Write example_display 0x41 RSData
  /\ (0x41 = 0x41 /\ RSData = RSData).
Proof.
  assert (Hlen : List.length (DataPins example_display) = 4%nat
                 \/ List.length (DataPins example_display) = 8%nat)
    by (left; reflexivity).
  assert (Hd : 0 <= 0x41 < 256) by lia.
  split; [exact Hlen|]. split; [exact Hd|]. split; [reflexivity|].
  exact (Write_injective example_display 0x41 0x41 RSData RSData
           Hlen Hd Hd eq_refl).
Defined.

(** ** The driver stays on its own pins *)

Lemma Forall_range_from {X} (P : event -> Prop) (f : Z -> X -> trace) xs :
  forall i, (forall j x, In x xs -> Forall P (f j x)) ->
  Forall P (range_from i f xs).
Proof.
  induction xs as [|x xs IH]; intros i Hf; [constructor|].
  cbn [range_from]. apply Forall_app. split.
  - apply Hf. now left.
  - apply IH. intros j y Hy. apply Hf. now right.
Qed.

Lemma Forall_flat_map {X} (P : event -> Prop) (f : X -> trace) xs :
  (forall x, Forall P (f x)) -> Forall P (flat_map f xs).
Proof.
  intros Hf. induction xs as [|x xs IH]; [constructor|].
  cbn [flat_map]. apply Forall_app. now split.
Qed.

Ltac bus_events :=
  repeat (apply Forall_cons; [cbn; auto|]); apply Forall_nil.

Lemma bus_event_present l data base : Forall (bus_event l) (present l data base).
Proof.
  unfold present, range. apply Forall_range_from. intros j pin Hin.
  unfold setBitToPin. destruct (_ =? _); bus_events.
Qed.

Lemma bus_event_enable l t : Forall (bus_event l) (enable l t).
Proof. unfold enable. bus_events. Qed.

Lemma bus_event_Write l data mode : Forall (bus_event l) (Write l data mode).
Proof.
  unfold Write. repeat (apply Forall_app; split).
  - bus_events.
  - destruct mode; bus_events.
  - apply Forall_forall. intros e He. apply in_map_iff in He.
    destruct He as (p & <- & Hp). cbn. auto.
  - destruct (_ =? 4).
    + repeat (apply Forall_app; split);
        [apply bus_event_present|apply bus_event_enable|apply bus_event_present].
    + apply bus_event_present.
  - apply bus_event_enable.
  - bus_events.
Qed.

Ltac bus_parts :=
  repeat first
    [ apply bus_event_Write
    | apply Forall_flat_map; intros ?
    | match goal with |- Forall _ (_ ++ _) => apply Forall_app; split end
    | progress bus_events ].

(** X3: every event of a bus operation of display [l] drives RS, E or one
    of the data pins of [l], sleeps, or takes or releases [writelock] or
    [linelock]: no operation touches another pin, changes a pin direction,
    opens the GPIO subsystem or takes a per-line mutex.  This holds for
    [WriteLine] whether it returns or panics. *)
Theorem bus_operations_stay_on_their_pins (l : LCD) :
  (forall data mode, Forall (bus_event l) (Write l data mode))
  /\ Forall (bus_event l) (Reset l)
  /\ Forall (bus_event l) (Initialize l)
  /\ Forall (bus_event l) (ReturnHome l)
  /\ Forall (bus_event l) (Clear l)
  /\ (forall increment shift, Forall (bus_event l) (EntryModeSet l increment shift))
  /\ (forall display cursor blink,
        Forall (bus_event l) (DisplayMode l display cursor blink))
  /\ (forall position data, Forall (bus_event l) (CreateChar l position data))
  /\ (forall s line, Forall (bus_event l) (events (WriteLine l s line))).
Proof.
  repeat split; intros;
    unfold Initialize, Reset, ReturnHome, Clear, EntryModeSet, DisplayMode;
    try bus_parts.
  - unfold CreateChar. destruct (7 <? position); [constructor|]. bus_parts.
  - unfold WriteLine. destruct (slice_to _ _); cbn [events]; bus_parts.
Qed.

(** ** Time spent on the bus *)

Lemma duration_app t u : duration (t ++ u) = duration t + duration u.
Proof.
  induction t as [|e t IH]; [reflexivity|].
  cbn [app duration]. destruct e; rewrite IH; lia.
Qed.

Lemma duration_map_Low ps : duration (map Low ps) = 0.
Proof. induction ps as [|p ps IH]; [reflexivity|exact IH]. Qed.

Lemma duration_present l data base : duration (present l data base) = 0.
Proof.
  unfold present, range. generalize 0 at 1. generalize (DataPins l).
  induction l0 as [|p ps IH]; intros i; [reflexivity|].
  cbn [range_from]. rewrite duration_app, IH.
  unfold setBitToPin. now destruct (_ =? _).
Qed.

Lemma duration_Write l data mode :
  duration (Write l data mode)
  = if Z.of_nat (List.length (DataPins l)) =? 4 then 84000 else 42000.
Proof.
  unfold Write. rewrite !duration_app, duration_map_Low.
  destruct (_ =? 4).
  - rewrite !duration_app, !duration_present. now destruct mode.
  - rewrite duration_present. now destruct mode.
Qed.

Lemma duration_flat_map_Write {X} l (f : X -> Z) mode xs :
  duration (flat_map (fun x => Write l (f x) mode) xs)
  = Z.of_nat (List.length xs)
    * (if Z.of_nat (List.length (DataPins l)) =? 4 then 84000 else 42000).
Proof.
  induction xs as [|x xs IH]; [reflexivity|].
  cbn [flat_map List.length]. rewrite duration_app, duration_Write, IH. lia.
Qed.

(** X4: a bus write sleeps for 84 microseconds on four data pins (two
    pulses of 1 + 1 + 40) and for 42 on any other number; [Initialize]
    sleeps for seven such writes and 11600 microseconds more; [CreateChar]
    on a position up to 7 sleeps for nine writes, on a larger position not
    at all.  Durations are in nanoseconds. *)
Theorem bus_write_durations (l : LCD) :
  let write_time :=
    if Z.of_nat (List.length (DataPins l)) =? 4 then 84000 else 42000 in
  (forall data mode, duration (Write l data mode) = write_time)
  /\ duration (Initialize l) = 7 * write_time + 11600000
  /\ (forall position data,
        duration (CreateChar l position data)
        = if 7 <? position then 0 else 9 * write_time).
Proof.
  intros write_time. split; [|split].
  - intros data mode. apply duration_Write.
  - unfold Initialize, Reset, EntryModeSet, DisplayMode, ReturnHome, Clear.
    rewrite !duration_app, !duration_Write. fold write_time. cbn [duration].
    unfold ExecutionTimeDefault, ExecutionTimeReturnHome, Millisecond, Microsecond.
    lia.
  - intros position data. unfold CreateChar. destruct (7 <? position); [reflexivity|].
    rewrite duration_app, duration_Write.
    rewrite (duration_flat_map_Write l (fun x => x)). fold write_time.
    cbn [rows List.length]. lia.
Qed.

(** X5: a line write on a display of width [w] in the range of [fmt]
    sleeps for one bus write per rune written and one for the address, at
    most [w + 1] bus writes, and exactly [w + 1] for ASCII text: 1428
    microseconds for sixteen columns on four data pins. *)
Theorem WriteLine_duration (l : LCD) (s : gostring) (line : LineNumber) :
  0 <= LineWidth l <= fmt.widthLimit ->
  let write_time :=
    if Z.of_nat (List.length (DataPins l)) =? 4 then 84000 else 42000 in
  duration (events (WriteLine l s line))
  = (1 + Z.of_nat (List.length (utf8.runes (fitted (LineWidth l) s)))) * write_time
  /\ duration (events (WriteLine l s line)) <= (1 + LineWidth l) * write_time
  /\ (ascii_only s ->
      duration (events (WriteLine l s line)) = (1 + LineWidth l) * write_time).
Proof.
  intros Hw write_time.
  assert (Hlen := fitted_length (LineWidth l) s (proj1 Hw)).
  assert (Hruns := runes_from_length (fitted (LineWidth l) s) 0).
  fold (utf8.runes (fitted (LineWidth l) s)) in Hruns.
  assert (Htime : 0 < write_time)
    by (subst write_time; destruct (_ =? 4); lia).
  assert (Heq : duration (events (WriteLine l s line))
                = (1 + Z.of_nat (List.length (utf8.runes (fitted (LineWidth l) s))))
                  * write_time).
  { rewrite WriteLine_returns by exact Hw. cbn [events]. unfold line_write.
    rewrite !duration_app, duration_Write, (duration_flat_map_Write l uint8).
    fold write_time. cbn [duration]. lia. }
  split; [exact Heq|]. split.
  - rewrite Heq. apply Z.mul_le_mono_nonneg_r; lia.
  - intros Hs. rewrite Heq.
    rewrite runes_ascii, length_map, Hlen.
    + f_equal. lia.
    + apply ascii_only_firstn, ascii_only_app; [apply ascii_only_spaces|exact Hs].
Qed.

Lemma WriteLine_duration_witness :
  0 <= LineWidth example_display <= fmt.widthLimit
  /\ duration (events (WriteLine example_display (gostr "Go Rpi LCD 1602") Line1))
     <= (1 + 16) * 84000.
Proof.
  assert (Hw : 0 <= LineWidth example_display <= fmt.widthLimit)
    by (unfold fmt.widthLimit; cbn; lia).
  split; [exact Hw|].
  exact (proj1 (proj2 (WriteLine_duration example_display
                         (gostr "Go Rpi LCD 1602") Line1 Hw))).
Defined.

(** ** Instruction bytes *)

(** X6: [EntryModeSet] and [DisplayMode] each perform one instruction write;
    its byte lies in 4..7, resp. 8..15, and carries the flags in its low
    bits.  On four or eight data pins, different flags therefore give
    different bus traffic, and no entry-mode write is a display-mode
    write. *)
Theorem mode_instructions (l : LCD) :
  (forall increment shift,
     exists v, EntryModeSet l increment shift = Write l v RSInstruction
               /\ 4 <= v <= 7
               /\ Z.testbit v 1 = increment /\ Z.testbit v 0 = shift)
  /\ (forall display cursor blink,
        exists v, DisplayMode l display cursor blink = Write l v RSInstruction
                  /\ 8 <= v <= 15
                  /\ Z.testbit v 2 = display /\ Z.testbit v 1 = cursor
                  /\ Z.testbit v 0 = blink)
  /\ (List.length (DataPins l) = 4%nat \/ List.length (DataPins l) = 8%nat ->
      (forall i s i' s',
         EntryModeSet l i s = EntryModeSet l i' s' -> i = i' /\ s = s')
      /\ (forall d c b d' c' b',
            DisplayMode l d c b = DisplayMode l d' c' b' ->
            d = d' /\ c = c' /\ b = b')
      /\ (forall i s d c b, EntryModeSet l i s <> DisplayMode l d c b)).
Proof.
  assert (Hentry : forall increment shift,
            exists v, EntryModeSet l increment shift = Write l v RSInstruction
                      /\ 4 <= v <= 7
                      /\ Z.testbit v 1 = increment /\ Z.testbit v 0 = shift).
  { intros [|] [|]; eexists; (split; [reflexivity|]); cbn; repeat split; lia. }
  assert (Hdisplay : forall display cursor blink,
            exists v, DisplayMode l display cursor blink = Write l v RSInstruction
                      /\ 8 <= v <= 15
                      /\ Z.testbit v 2 = display /\ Z.testbit v 1 = cursor
                      /\ Z.testbit v 0 = blink).
  { intros [|] [|] [|]; eexists; (split; [reflexivity|]); cbn; repeat split; lia. }
  split; [exact Hentry|]. split; [exact Hdisplay|].
  intros Hlen. split; [|split].
  - intros i s i' s' Heq.
    destruct (Hentry i s) as (v & Hv & Hrange & <- & <-).
    destruct (Hentry i' s') as (v' & Hv' & Hrange' & <- & <-).
    rewrite Hv, Hv' in Heq.
    apply (Write_determines_byte l v v' _ _ Hlen) in Heq; [|lia|lia].
    now subst v'.
  - intros d c b d' c' b' Heq.
    destruct (Hdisplay d c b) as (v & Hv & Hrange & <- & <- & <-).
    destruct (Hdisplay d' c' b') as (v' & Hv' & Hrange' & <- & <- & <-).
    rewrite Hv, Hv' in Heq.
    apply (Write_determines_byte l v v' _ _ Hlen) in Heq; [|lia|lia].
    now subst v'.
  - intros i s d c b Heq.
    destruct (Hentry i s) as (v & Hv & Hrange & _).
    destruct (Hdisplay d c b) as (v' & Hv' & Hrange' & _).
    rewrite Hv, Hv' in Heq.
    apply (Write_determines_byte l v v' _ _ Hlen) in Heq; lia.
Qed.

Lemma mode_instructions_witness :
  (List.length (DataPins example_display) = 4%nat
   \/ List.length (DataPins example_display) = 8%nat)
  /\ (forall i s d c b,
        EntryModeSet example_display i s <> DisplayMode example_display d c b).
Proof.
  assert (Hlen : List.length (DataPins example_display) = 4%nat
                 \/ List.length (DataPins example_display) = 8%nat)
    by (left; reflexivity).
  split; [exact Hlen|].
  exact (proj2 (proj2 (proj2 (proj2 (mode_instructions example_display)) Hlen))).
Defined.

(** ** Glyphs on the bus *)

Lemma length_range_setBitToPin data (mask : Z -> Z) (pins : list Pin) : forall i,
  List.length (range_from i (fun j pin => setBitToPin pin data (mask j)) pins)
  = List.length pins.
Proof.
  induction pins as [|p pins IH]; intros i; [reflexivity|].
  cbn [range_from]. rewrite length_app, IH.
  unfold setBitToPin. now destruct (_ =? _).
Qed.

(** All bus writes of one display have the same number of events. *)
Lemma length_Write l d m d' m' :
  List.length (Write l d m) = List.length (Write l d' m').
Proof.
  unfold Write, present, range.
  destruct (_ =? 4);
    repeat (rewrite ?length_app, ?length_map;
            rewrite ?(length_range_setBitToPin d (fun j => shl8 16 j)),
                    ?(length_range_setBitToPin d (fun j => shl8 1 j)),
                    ?(length_range_setBitToPin d' (fun j => shl8 16 j)),
                    ?(length_range_setBitToPin d' (fun j => shl8 1 j)));
    reflexivity.
Qed.

Lemma flat_map_Write_inj l (xs ys : list Z) :
  List.length (DataPins l) = 4%nat \/ List.length (DataPins l) = 8%nat ->
  Forall (fun x => 0 <= x < 256) xs -> Forall (fun y => 0 <= y < 256) ys ->
  List.length xs = List.length ys ->
  flat_map (fun x => Write l x RSData) xs = flat_map (fun y => Write l y RSData) ys ->
  xs = ys.
Proof.
  intros Hpins Hxs. revert ys.
  induction Hxs as [|x xs Hx _ IH]; intros [|y ys] Hys Hlen Heq;
    try discriminate Hlen; [reflexivity|].
  inversion Hys as [|? ? Hy Hys']; subst. cbn [flat_map] in Heq.
  apply app_same_length in Heq; [|apply length_Write].
  destruct Heq as [Hhead Htail].
  apply (Write_determines_byte l x y _ _ Hpins Hx Hy) in Hhead. subst y.
  f_equal. apply IH; [exact Hys'|now injection Hlen|exact Htail].
Qed.

(** X7: on four or eight data pins the bus traffic of [CreateChar]
    determines the glyph slot and the glyph: two calls with positions up to
    7 and rows that are bytes perform the same events only for the same
    position and the same eight rows. *)
Theorem CreateChar_injective (l : LCD) (p q : Z) (c c' : Character) :
  List.length (DataPins l) = 4%nat \/ List.length (DataPins l) = 8%nat ->
  0 <= p <= 7 -> 0 <= q <= 7 ->
  Forall (fun x => 0 <= x < 256) (rows c) ->
  Forall (fun x => 0 <= x < 256) (rows c') ->
  CreateChar l p c = CreateChar l q c' -> p = q /\ c = c'.
Proof.
  intros Hpins Hp Hq Hc Hc' Heq. unfold CreateChar in Heq.
  destruct (Z.ltb_spec 7 p); [lia|]. destruct (Z.ltb_spec 7 q); [lia|].
  rewrite !CGRAM_address in Heq by assumption.
  apply app_same_length in Heq; [|apply length_Write].
  destruct Heq as [Haddress Hrows].
  apply (Write_determines_byte l _ _ _ _ Hpins) in Haddress; [|lia|lia].
  apply (flat_map_Write_inj l _ _ Hpins Hc Hc' eq_refl) in Hrows.
  split; [lia|].
  destruct c, c'. unfold rows in Hrows. cbn in Hrows.
  injection Hrows as -> -> -> -> -> -> -> ->. reflexivity.
Qed.

Lemma CreateChar_injective_witness :
  (List.length (DataPins example_display) = 4%nat
   \/ List.length (DataPins example_display) = 8%nat)
  /\ 0 <= 3 <= 7
  /\ Forall (fun x => 0 <= x < 256) (rows (glyph 21))
  /\ (3 = 3 /\ glyph 21 = glyph 21).
Proof.
  assert (Hlen : List.length (DataPins example_display) = 4%nat
                 \/ List.length (DataPins example_display) = 8%nat)
    by (left; reflexivity).
  assert (Hp : 0 <= 3 <= 7) by lia.
  assert (Hrows : Forall (fun x => 0 <= x < 256) (rows (glyph 21))).
  { apply Forall_forall. intros x Hx. cbn in Hx.
    repeat (destruct Hx as [<-|Hx]; [lia|]). contradiction. }
  split; [exact Hlen|]. split; [exact Hp|]. split; [exact Hrows|].
  exact (CreateChar_injective example_display 3 3 (glyph 21) (glyph 21)
           Hlen Hp Hp Hrows Hrows eq_refl).
Defined.

(** ** The cost of loading glyphs *)

Lemma write_calls_CreateChar l position data :
  write_calls (CreateChar l position data)
  = if 7 <? position then 0%nat else 9%nat.
Proof.
  unfold CreateChar. destruct (7 <? position); [reflexivity|].
  rewrite write_calls_app, write_calls_Write, write_calls_flat_map.
  - reflexivity.
  - intros x. apply write_calls_Write.
Qed.

Lemma write_calls_range_from {X} (f : Z -> X -> trace) (k : nat) xs : forall i,
  (forall j x, i <= j < i + Z.of_nat (List.length xs) -> write_calls (f j x) = k) ->
  write_calls (range_from i f xs) = (k * List.length xs)%nat.
Proof.
  induction xs as [|x xs IH]; intros i Hf; [cbn; lia|].
  cbn [range_from List.length] in *.
  rewrite write_calls_app, (Hf i x) by lia.
  rewrite (IH (i + 1)); [lia|]. intros j y Hj. apply Hf. lia.
Qed.

(** X8: loading [n] glyphs into a display performs [9 * min n 8] bus
    writes, none for an empty list, and never more than 72: every
    [CreateChar] it calls is given a position up to 7. *)
Theorem SetCustomCharacters_write_calls (l : LCD) (characters : list Character) :
  write_calls (SetCustomCharacters l characters)
  = (9 * Nat.min (List.length characters) 8)%nat
  /\ (write_calls (SetCustomCharacters l characters) <= 72)%nat.
Proof.
  assert (Heq : write_calls (SetCustomCharacters l characters)
                = (9 * Nat.min (List.length characters) 8)%nat).
  { set (n := Z.of_nat (List.length characters)).
    assert (Hloop : SetCustomCharacters l characters
                    = range_from (Z.max 0 (8 - n + 0)) (LCDI.CreateChar l)
                        (skipn (Z.to_nat (n - 8 - 0)) characters)).
    { unfold SetCustomCharacters, range.
      apply (SetCustomCharacters_loop l n characters 0); [lia|reflexivity]. }
    rewrite Hloop. cbn [LCDI.CreateChar LCD_LCDI].
    rewrite (write_calls_range_from _ 9).
    - rewrite length_skipn. subst n. lia.
    - intros j chr Hj. rewrite length_skipn in Hj.
      rewrite write_calls_CreateChar.
      destruct (Z.ltb_spec 7 j); [subst n; lia|reflexivity]. }
  split; [exact Heq|]. rewrite Heq. lia.
Qed.

(** ** Blank lines, empty lines, and how many data writes a line takes *)

Lemma flat_map_repeat {X Y} (f : X -> list Y) x n :
  flat_map f (repeat x n) = List.concat (repeat (f x) n).
Proof. induction n as [|n IH]; [reflexivity|]. cbn. now rewrite IH. Qed.

(** X9: writing the empty text blanks the line: on a display of width [w]
    in the range of [fmt] the address instruction is followed by [w] data
    writes of a space.  On a display of width 0 every text is written as
    the address instruction alone. *)
Theorem WriteLine_blank_line (l : LCD) (line : LineNumber) :
  (0 <= LineWidth l <= fmt.widthLimit ->
   WriteLine l [] line
   = Returns ([Lock linelock]
              ++ Write l (uint8 line) RSInstruction
              ++ List.concat (repeat (Write l 0x20 RSData) (Z.to_nat (LineWidth l)))
              ++ [Unlock linelock]))
  /\ (LineWidth l = 0 ->
      forall s,
        WriteLine l s line
        = Returns ([Lock linelock]
                   ++ Write l (uint8 line) RSInstruction
                   ++ [Unlock linelock])).
Proof.
  split.
  - intros Hw. rewrite WriteLine_returns by exact Hw. unfold line_write.
    assert (Hfit : fitted (LineWidth l) [] = repeat fmt.space (Z.to_nat (LineWidth l))).
    { unfold fitted. rewrite app_nil_r.
      change (utf8.RuneCountInString []) with 0. rewrite Z.sub_0_r.
      rewrite <- (repeat_length fmt.space (Z.to_nat (LineWidth l))) at 1.
      apply firstn_all. }
    rewrite Hfit, runes_ascii by apply ascii_only_spaces.
    rewrite map_repeat, flat_map_repeat. reflexivity.
  - intros H0 s. rewrite WriteLine_returns by (rewrite H0; unfold fmt.widthLimit; lia).
    unfold line_write, fitted. rewrite H0. reflexivity.
Qed.

Lemma WriteLine_blank_line_witness :
  0 <= LineWidth narrow_display <= fmt.widthLimit
  /\ WriteLine narrow_display [] Line2
     = Returns ([Lock linelock]
                ++ Write narrow_display (uint8 Line2) RSInstruction
                ++ List.concat (repeat (Write narrow_display 0x20 RSData)
                             (Z.to_nat (LineWidth narrow_display)))
                ++ [Unlock linelock])
  /\ LineWidth (mkLCD 10 9 [6; 13; 19; 26] 0) = 0
  /\ WriteLine (mkLCD 10 9 [6; 13; 19; 26] 0) (gostr "hi") Line1
     = Returns ([Lock linelock]
                ++ Write (mkLCD 10 9 [6; 13; 19; 26] 0) (uint8 Line1) RSInstruction
                ++ [Unlock linelock]).
Proof.
  assert (Hw : 0 <= LineWidth narrow_display <= fmt.widthLimit)
    by (unfold fmt.widthLimit; cbn; lia).
  split; [exact Hw|]. split.
  - exact (proj1 (WriteLine_blank_line narrow_display Line2) Hw).
  - split; [reflexivity|].
    exact (proj2 (WriteLine_blank_line (mkLCD 10 9 [6; 13; 19; 26] 0) Line1)
             eq_refl (gostr "hi")).
Defined.

(** A rune of a non-empty string is one to four bytes wide. *)
Lemma DecodeRuneInString_size b s :
  (1 <= snd (utf8.DecodeRuneInString (b :: s)) <= 4)%nat.
Proof.
  unfold utf8.DecodeRuneInString.
  destruct (utf8.first (byte_val b)) as [| |sz lo hi]; try (cbn; lia).
  destruct (_ <? _)%nat; [cbn; lia|].
  destruct s as [|b1 s1]; [cbn; lia|].
  destruct (negb _); [cbn; lia|]. destruct (_ <=? 2)%nat; [cbn; lia|].
  destruct s1 as [|b2 s2]; [cbn; lia|].
  destruct (negb _); [cbn; lia|]. destruct (_ <=? 3)%nat; [cbn; lia|].
  destruct s2 as [|b3 s3]; [cbn; lia|].
  destruct (negb _); cbn; lia.
Qed.

Lemma runes_from_at_least s : forall skip,
  (List.length s <= skip + 4 * List.length (utf8.runes_from skip s))%nat.
Proof.
  induction s as [|b s IH]; intros skip; [cbn; lia|].
  cbn [utf8.runes_from]. destruct skip as [|k].
  - pose proof (DecodeRuneInString_size b s) as Hsize.
    destruct (utf8.DecodeRuneInString (b :: s)) as [r size]. cbn [snd] in Hsize.
    specialize (IH (size - 1)%nat). cbn [List.length]. lia.
  - specialize (IH k). cbn [List.length]. lia.
Qed.

(** X10: a line write on a display of width [w] in the range of [fmt]
    performs, besides the address instruction, at most [w] data writes and
    at least a quarter of [w]: every rune takes one to four of the [w]
    bytes. *)
Theorem WriteLine_data_writes_bounds (l : LCD) (s : gostring) (line : LineNumber) :
  0 <= LineWidth l <= fmt.widthLimit ->
  (1 <= write_calls (events (WriteLine l s line)))%nat
  /\ Z.of_nat (write_calls (events (WriteLine l s line))) - 1 <= LineWidth l
  /\ LineWidth l <= 4 * (Z.of_nat (write_calls (events (WriteLine l s line))) - 1).
Proof.
  intros Hw. rewrite WriteLine_returns by exact Hw. cbn [events].
  rewrite write_calls_line_write.
  assert (Hlen := fitted_length (LineWidth l) s (proj1 Hw)).
  assert (Hmost := runes_from_length (fitted (LineWidth l) s) 0).
  assert (Hleast := runes_from_at_least (fitted (LineWidth l) s) 0).
  fold (utf8.runes (fitted (LineWidth l) s)) in Hmost, Hleast. lia.
Qed.

Lemma WriteLine_data_writes_bounds_witness :
  0 <= LineWidth narrow_display <= fmt.widthLimit
  /\ LineWidth narrow_display
     <= 4 * (Z.of_nat (write_calls
                         (events (WriteLine narrow_display
                                    [xf0; x9f; x98; x80] Line1))) - 1).
Proof.
  assert (Hw : 0 <= LineWidth narrow_display <= fmt.widthLimit)
    by (unfold fmt.widthLimit; cbn; lia).
  split; [exact Hw|].
  exact (proj2 (proj2 (WriteLine_data_writes_bounds narrow_display
                         [xf0; x9f; x98; x80] Line1 Hw))).
Defined.

(** ** Mutexes nest and are given back *)

Lemma run_mutexes_app held t u :
  run_mutexes held (t ++ u)
  = match run_mutexes held t with
    | Some held' => run_mutexes held' u
    | None => None
    end.
Proof.
  revert held. induction t as [|e t IH]; intros held; [reflexivity|].
  cbn [app run_mutexes].
  destruct e; try apply IH; destruct (holds held m); auto.
Qed.

Lemma run_mutexes_quiet held t : quiet t -> run_mutexes held t = Some held.
Proof.
  induction 1 as [|e t He _ IH]; [reflexivity|].
  cbn [run_mutexes]. destruct e; try exact IH; contradiction.
Qed.

Lemma quiet_app t u : quiet t -> quiet u -> quiet (t ++ u).
Proof. unfold quiet. intros Ht Hu. apply Forall_app. now split. Qed.

Lemma quiet_present l data base : quiet (present l data base).
Proof.
  unfold present, range, quiet. apply Forall_range_from. intros j pin _.
  unfold setBitToPin. destruct (_ =? _); repeat constructor.
Qed.

Lemma quiet_enable l t : quiet (enable l t).
Proof. unfold enable, quiet. repeat constructor. Qed.

Lemma quiet_map_Low ps : quiet (map Low ps).
Proof.
  unfold quiet. apply Forall_forall. intros e He.
  apply in_map_iff in He. destruct He as (p & <- & _). exact I.
Qed.

Lemma release_unheld held m :
  holds held m = false ->
  filter (fun m' => negb (mutex_eqb m m')) (m :: held) = held.
Proof.
  intros Hfree. cbn [filter].
  replace (mutex_eqb m m) with true by (now destruct m). cbn [negb].
  induction held as [|m' held IH]; [reflexivity|].
  cbn [holds existsb] in Hfree. apply orb_false_iff in Hfree.
  destruct Hfree as [Hne Hfree]. cbn [filter]. rewrite Hne. cbn [negb].
  f_equal. apply IH. exact Hfree.
Qed.

Lemma holds_head m held : holds (m :: held) m = true.
Proof. cbn. now destruct m. Qed.

(** A section between [Lock m] and [Unlock m] that gives back what it
    takes. *)
Lemma run_mutexes_bracket held m t :
  holds held m = false ->
  run_mutexes (m :: held) t = Some (m :: held) ->
  run_mutexes held ([Lock m] ++ t ++ [Unlock m]) = Some held.
Proof.
  intros Hfree Hinner. cbn [app run_mutexes]. rewrite Hfree.
  rewrite run_mutexes_app, Hinner. cbn [run_mutexes].
  rewrite holds_head. now rewrite release_unheld.
Qed.

Lemma run_mutexes_Write held l data mode :
  holds held writelock = false ->
  run_mutexes held (Write l data mode) = Some held.
Proof.
  intros Hfree. unfold Write.
  replace ([Lock writelock]
           ++ [if mode then High (RS l) else Low (RS l)]
           ++ map Low (DataPins l)
           ++ (if Z.of_nat (List.length (DataPins l)) =? 4
               then present l data 16 ++ enable l ExecutionTimeDefault
                    ++ present l data 1
               else present l data 1)
           ++ enable l ExecutionTimeDefault ++ [Unlock writelock])
    with ([Lock writelock]
          ++ ([if mode then High (RS l) else Low (RS l)]
              ++ map Low (DataPins l)
              ++ (if Z.of_nat (List.length (DataPins l)) =? 4
                  then present l data 16 ++ enable l ExecutionTimeDefault
                       ++ present l data 1
                  else present l data 1)
              ++ enable l ExecutionTimeDefault)
          ++ [Unlock writelock])
    by (now rewrite <- !app_assoc).
  apply run_mutexes_bracket; [exact Hfree|].
  apply run_mutexes_quiet.
  repeat apply quiet_app.
  - destruct mode; repeat constructor.
  - apply quiet_map_Low.
  - destruct (_ =? 4); repeat apply quiet_app;
      auto using quiet_present, quiet_enable.
  - apply quiet_enable.
Qed.

Lemma run_mutexes_flat_map_Write {X} held l (f : X -> Z) mode xs :
  holds held writelock = false ->
  run_mutexes held (flat_map (fun x => Write l (f x) mode) xs) = Some held.
Proof.
  intros Hfree. induction xs as [|x xs IH]; [reflexivity|].
  cbn [flat_map]. now rewrite run_mutexes_app, run_mutexes_Write.
Qed.

Lemma run_mutexes_line_write held l line text :
  holds held linelock = false -> holds held writelock = false ->
  run_mutexes held (line_write l line text) = Some held.
Proof.
  intros Hline Hwrite. unfold line_write.
  replace ([Lock linelock]
           ++ Write l line RSInstruction
           ++ flat_map (fun c => Write l (uint8 c) RSData) (utf8.runes text)
           ++ [Unlock linelock])
    with ([Lock linelock]
          ++ (Write l line RSInstruction
              ++ flat_map (fun c => Write l (uint8 c) RSData) (utf8.runes text))
          ++ [Unlock linelock])
    by (now rewrite <- !app_assoc).
  apply run_mutexes_bracket; [exact Hline|].
  assert (Hinner : holds (linelock :: held) writelock = false)
    by (cbn; exact Hwrite).
  rewrite run_mutexes_app, run_mutexes_Write by exact Hinner.
  now apply run_mutexes_flat_map_Write.
Qed.

(** X11: called with [linelock] and [writelock] free, [WriteLine] ends with
    exactly the mutexes held that were held before, on every width, also
    when it panics; it takes [writelock] only inside [linelock].  Called
    with [linelock] held it never gets past its first step, and so does
    [Write] called with [writelock] held: the mutexes are not reentrant. *)
Theorem WriteLine_gives_mutexes_back (l : LCD) (s : gostring) (line : LineNumber)
    (held : list mutex) :
  (holds held linelock = false -> holds held writelock = false ->
   run_mutexes held (events (WriteLine l s line)) = Some held)
  /\ (holds held linelock = true ->
      run_mutexes held (events (WriteLine l s line)) = None)
  /\ (holds held writelock = true ->
      forall data mode, run_mutexes held (Write l data mode) = None).
Proof.
  split; [|split].
  - intros Hline Hwrite. unfold WriteLine. destruct (slice_to _ _) as [text|].
    + cbn [events]. now apply (run_mutexes_line_write held l (uint8 line) text).
    + cbn [events run_mutexes]. rewrite Hline, holds_head.
      now rewrite release_unheld.
  - intros Hline. unfold WriteLine.
    destruct (slice_to _ _); cbn [events app run_mutexes]; now rewrite Hline.
  - intros Hwrite data mode. unfold Write. cbn [app run_mutexes].
    now rewrite Hwrite.
Qed.

Lemma WriteLine_gives_mutexes_back_witness :
  (holds [line1] linelock = false /\ holds [line1] writelock = false)
  /\ run_mutexes [line1] (events (WriteLine example_display (gostr "hi") Line1))
     = Some [line1]
  /\ holds [linelock] linelock = true
  /\ run_mutexes [linelock] (events (WriteLine example_display (gostr "hi") Line1))
     = None
  /\ holds [writelock] writelock = true
  /\ run_mutexes [writelock] (Write example_display 0x41 RSData) = None.
Proof.
  destruct (WriteLine_gives_mutexes_back example_display (gostr "hi") Line1 [line1])
    as (Hfree & _ & _).
  destruct (WriteLine_gives_mutexes_back example_display (gostr "hi") Line1 [linelock])
    as (_ & Hline & _).
  destruct (WriteLine_gives_mutexes_back example_display (gostr "hi") Line1 [writelock])
    as (_ & _ & Hwrite).
  split; [split; reflexivity|]. split; [exact (Hfree eq_refl eq_refl)|].
  split; [reflexivity|]. split; [exact (Hline eq_refl)|].
  split; [reflexivity|]. exact (Hwrite eq_refl 0x41 RSData).
Defined.

(** ** Writing both lines *)

(** X12: on a display of width in the range of [fmt], [WriteLines] returns
    for every list of texts: nothing happens for the empty list; the first
    text is written to [Line1] under [line1], and only after [line1] is
    released the second, if there is one, to [Line2] under [line2]; texts
    beyond the second are ignored.  Started with no mutex held it ends
    with none held. *)
Theorem WriteLines_two_lines (l : LCD) (lines : list gostring) :
  0 <= LineWidth l <= fmt.widthLimit ->
  synchronized.WriteLines {| synchronized.lcd := l |} lines
  = Returns
      (match lines with
       | [] => []
       | first :: more =>
         ([Lock line1]
          ++ line_write l Line1 (fitted (LineWidth l) first)
          ++ [Unlock line1])
         ++ match more with
            | [] => []
            | second :: _ =>
              [Lock line2]
              ++ line_write l Line2 (fitted (LineWidth l) second)
              ++ [Unlock line2]
            end
       end)
  /\ synchronized.WriteLines {| synchronized.lcd := l |} lines
     = synchronized.WriteLines {| synchronized.lcd := l |} (firstn 2 lines)
  /\ run_mutexes []
       (events (synchronized.WriteLines {| synchronized.lcd := l |} lines))
     = Some [].
Proof.
  intros Hw.
  assert (Hline : forall s line,
            LCDI.WriteLine l s line
            = Returns (line_write l (uint8 line) (fitted (LineWidth l) s))).
  { intros s line. cbn [LCDI.WriteLine LCD_LCDI]. now apply WriteLine_returns. }
  assert (Hshape : synchronized.WriteLines {| synchronized.lcd := l |} lines
                   = Returns
                       (match lines with
                        | [] => []
                        | first :: more =>
                          ([Lock line1]
                           ++ line_write l Line1 (fitted (LineWidth l) first)
                           ++ [Unlock line1])
                          ++ match more with
                             | [] => []
                             | second :: _ =>
                               [Lock line2]
                               ++ line_write l Line2 (fitted (LineWidth l) second)
                               ++ [Unlock line2]
                             end
                        end)).
  { unfold synchronized.WriteLines. cbn [synchronized.lcd].
    destruct lines as [|first [|second rest]]; rewrite ?Hline; reflexivity. }
  split; [exact Hshape|]. split.
  - destruct lines as [|first [|second rest]]; reflexivity.
  - rewrite Hshape. cbn [events].
    assert (Hone : forall m line text,
              m = line1 \/ m = line2 ->
              run_mutexes [] ([Lock m] ++ line_write l line text ++ [Unlock m])
              = Some []).
    { intros m line text Hm. apply run_mutexes_bracket; [reflexivity|].
      apply run_mutexes_line_write; destruct Hm; subst m; reflexivity. }
    destruct lines as [|first [|second rest]]; [reflexivity| |].
    + rewrite app_nil_r. apply Hone. now left.
    + rewrite run_mutexes_app, Hone by now left. apply Hone. now right.
Qed.

Lemma WriteLines_two_lines_witness :
  0 <= LineWidth example_display <= fmt.widthLimit
  /\ synchronized.WriteLines {| synchronized.lcd := example_display |}
       [gostr "Go Rpi LCD 1602"; gostr "git/PimvanHespen"; gostr "unused"]
     = synchronized.WriteLines {| synchronized.lcd := example_display |}
         (firstn 2 [gostr "Go Rpi LCD 1602"; gostr "git/PimvanHespen";
                    gostr "unused"])
  /\ run_mutexes []
       (events (synchronized.WriteLines {| synchronized.lcd := example_display |}
                  [gostr "Go Rpi LCD 1602"; gostr "git/PimvanHespen";
                   gostr "unused"]))
     = Some [].
Proof.
  assert (Hw : 0 <= LineWidth example_display <= fmt.widthLimit)
    by (unfold fmt.widthLimit; cbn; lia).
  split; [exact Hw|].
  exact (proj2 (WriteLines_two_lines example_display
                  [gostr "Go Rpi LCD 1602"; gostr "git/PimvanHespen";
                   gostr "unused"] Hw)).
Defined.

(** X13: on a display of negative width [WriteLines] with at least one
    text panics in its first line write, before any bus write and without
    reaching the second line; the deferred unlock has released [linelock],
    but [line1], whose unlock is not deferred, stays locked, so that a
    later [WriteLines] never gets past locking it. *)
Theorem WriteLines_negative_width (l : LCD) (first : gostring)
    (more : list gostring) :
  LineWidth l < 0 ->
  synchronized.WriteLines {| synchronized.lcd := l |} (first :: more)
  = Panics [Lock line1; Lock linelock; Unlock linelock]
  /\ run_mutexes []
       (events (synchronized.WriteLines {| synchronized.lcd := l |} (first :: more)))
     = Some [line1]
  /\ forall lines,
       lines <> [] ->
       run_mutexes [line1]
         (events (synchronized.WriteLines {| synchronized.lcd := l |} lines))
       = None.
Proof.
  intros Hw.
  assert (Hpanic : forall first' more',
            synchronized.WriteLines {| synchronized.lcd := l |} (first' :: more')
            = Panics [Lock line1; Lock linelock; Unlock linelock]).
  { intros first' more'. unfold synchronized.WriteLines.
    cbn [synchronized.lcd LCDI.WriteLine LCD_LCDI].
    rewrite !WriteLine_negative_width by exact Hw. reflexivity. }
  split; [apply Hpanic|]. split.
  - rewrite Hpanic. reflexivity.
  - intros [|first' more'] Hlines; [contradiction|].
    rewrite Hpanic. reflexivity.
Qed.

Lemma WriteLines_negative_width_witness :
  LineWidth (mkLCD 10 9 [6; 13; 19; 26] (-16)) < 0
  /\ synchronized.WriteLines
       {| synchronized.lcd := mkLCD 10 9 [6; 13; 19; 26] (-16) |}
       [gostr "hi"; gostr "there"]
     = Panics [Lock line1; Lock linelock; Unlock linelock].
Proof.
  assert (Hw : LineWidth (mkLCD 10 9 [6; 13; 19; 26] (-16)) < 0) by (cbn; lia).
  split; [exact Hw|].
  exact (proj1 (WriteLines_negative_width (mkLCD 10 9 [6; 13; 19; 26] (-16))
                  (gostr "hi") [gostr "there"] Hw)).
Defined.

(** ** The line mutex during an animation *)

Lemma sends_app t u : sends (t ++ u) = (sends t + sends u)%nat.
Proof. unfold sends. now rewrite filter_app, length_app. Qed.

Lemma sends_bus l t : Forall (bus_event l) t -> sends t = 0%nat.
Proof.
  induction 1 as [|e t He _ IH]; [reflexivity|].
  change (e :: t) with ([e] ++ t). rewrite sends_app, IH.
  destruct e; try reflexivity; contradiction.
Qed.

Lemma bus_event_line_write l line text : Forall (bus_event l) (line_write l line text).
Proof. unfold line_write. bus_parts. Qed.

Section AnimateMutexes.
Context {A : Type} `{animations.Animation A}.

(** The events of the goroutine on a display of width in the range of
    [fmt], for any line value. *)
Lemma goroutine_events (l : LCD) (animation : A) (line : LineNumber) (fuel : nat) :
  0 <= LineWidth l <= fmt.widthLimit ->
  synchronized.task_trace
    (synchronized.goroutine fuel {| synchronized.lcd := l |} animation line)
  = [AnimationWidth (LineWidth l)]
    ++ flat_map (frame_events l line)
         (frames fuel (animations.Width (LineWidth l) animation))
    ++ (if done_within fuel (animations.Width (LineWidth l) animation)
        then synchronized.unlock_line line ++ [SendDone] else []).
Proof.
  intros Hw. unfold synchronized.goroutine.
  cbn [synchronized.lcd LCDI.Width LCD_LCDI]. unfold Width.
  rewrite drive_frames by exact Hw.
  destruct (done_within fuel _); cbn [synchronized.after synchronized.task_trace app].
  - reflexivity.
  - now rewrite app_nil_r.
Qed.

Lemma frames_keep_mutexes (l : LCD) (line : LineNumber) held texts :
  holds held linelock = false -> holds held writelock = false ->
  run_mutexes held (flat_map (frame_events l line) texts) = Some held.
Proof.
  intros Hline Hwrite. induction texts as [|s texts IH]; [reflexivity|].
  cbn [flat_map]. unfold frame_events at 1.
  rewrite !run_mutexes_app, run_mutexes_line_write by assumption.
  cbn [run_mutexes]. exact IH.
Qed.

(** X14: [Animate] on [Line1] or [Line2], on a display of width in the
    range of [fmt]: the call itself leaves the mutex of the line, and no
    other, held; the goroutine keeps it held through every frame, and
    releases it and sends on the channel, once each, exactly when the
    animation has reported done; until then it does neither. *)
Theorem Animate_holds_line_until_done (l : LCD) (animation : A)
    (line : LineNumber) (m : mutex) (fuel : nat) :
  0 <= LineWidth l <= fmt.widthLimit ->
  (line = Line1 /\ m = line1) \/ (line = Line2 /\ m = line2) ->
  let call := synchronized.Animate {| synchronized.lcd := l |} animation line in
  let done := done_within fuel (animations.Width (LineWidth l) animation) in
  run_mutexes [] (fst call) = Some [m]
  /\ run_mutexes [] (fst call ++ synchronized.task_trace (snd call fuel))
     = Some (if done then [] else [m])
  /\ unlocks m (synchronized.task_trace (snd call fuel))
     = (if done then 1%nat else 0%nat)
  /\ sends (synchronized.task_trace (snd call fuel))
     = (if done then 1%nat else 0%nat).
Proof.
  intros Hw Hm call done.
  assert (Hcall : fst call = [Lock m])
    by (destruct Hm as [[-> ->]|[-> ->]]; reflexivity).
  assert (Hunlock : synchronized.unlock_line line = [Unlock m])
    by (destruct Hm as [[-> ->]|[-> ->]]; reflexivity).
  assert (Hm' : m = line1 \/ m = line2) by (destruct Hm as [[_ ->]|[_ ->]]; auto).
  assert (Hfree : holds [m] linelock = false /\ holds [m] writelock = false)
    by (destruct Hm' as [->| ->]; split; reflexivity).
  assert (Htrace := goroutine_events l animation line fuel Hw).
  fold done in Htrace. subst call. cbn [snd synchronized.Animate] in *.
  rewrite Htrace, Hunlock.
  set (texts := frames fuel (animations.Width (LineWidth l) animation)).
  split; [rewrite Hcall; reflexivity|]. split; [|split].
  - rewrite Hcall. cbn [app run_mutexes holds existsb].
    rewrite run_mutexes_app, frames_keep_mutexes by apply Hfree.
    destruct done; [|reflexivity].
    cbn [app run_mutexes]. rewrite holds_head, release_unheld; reflexivity.
  - rewrite !unlocks_app, unlocks_flat_map_zero.
    + destruct done; [|reflexivity]. destruct Hm' as [->| ->]; reflexivity.
    + intros s. unfold frame_events. rewrite unlocks_app.
      now rewrite (proj2 (line_write_line_mutexes _ _ _ m Hm')).
  - rewrite !sends_app.
    assert (Hframes : sends (flat_map (frame_events l line) texts) = 0%nat).
    { induction texts as [|s texts IH]; [reflexivity|].
      cbn [flat_map]. unfold frame_events at 1.
      rewrite !sends_app, (sends_bus l) by apply bus_event_line_write.
      exact IH. }
    rewrite Hframes. destruct done; reflexivity.
Qed.

(** X15: the first turn of the goroutine.  If the animation reports done
    at once, no line is written on any width: the goroutine tells the
    width, releases what [Animate] locked and sends.  If it does not and
    the width of the display is negative, the first line write panics: the
    goroutine ends before any bus write, without releasing the mutex of
    the line and without sending. *)
Theorem Animate_first_turn (l : LCD) (animation : A) (line : LineNumber)
    (fuel : nat) :
  let started := animations.Width (LineWidth l) animation in
  let task := snd (synchronized.Animate {| synchronized.lcd := l |}
                     animation line) (S fuel) in
  (fst (animations.Done started) = true ->
   task = synchronized.Finished
            ([AnimationWidth (LineWidth l)]
             ++ synchronized.unlock_line line ++ [SendDone]))
  /\ (fst (animations.Done started) = false -> LineWidth l < 0 ->
      task = synchronized.Crashed
               [AnimationWidth (LineWidth l); Lock linelock; Unlock linelock]).
Proof.
  intros started task. subst task. cbn [snd synchronized.Animate].
  unfold synchronized.goroutine.
  cbn [synchronized.lcd LCDI.Width LCD_LCDI synchronized.drive]. unfold Width.
  fold started. destruct (animations.Done started) as [done after_done].
  cbn [fst]. split.
  - intros ->. reflexivity.
  - intros -> Hw. destruct (animations.Content after_done) as [s after_content].
    cbn [LCDI.WriteLine LCD_LCDI].
    rewrite WriteLine_negative_width by exact Hw. reflexivity.
Qed.

End AnimateMutexes.

Lemma Animate_holds_line_until_done_witness :
  0 <= LineWidth example_display <= fmt.widthLimit
  /\ run_mutexes []
       (fst (synchronized.Animate {| synchronized.lcd := example_display |}
               {| text := gostr "hi"; remaining := 3 |} Line2)
        ++ synchronized.task_trace
             (snd (synchronized.Animate {| synchronized.lcd := example_display |}
                     {| text := gostr "hi"; remaining := 3 |} Line2) 2%nat))
     = Some [line2]
  /\ run_mutexes []
       (fst (synchronized.Animate {| synchronized.lcd := example_display |}
               {| text := gostr "hi"; remaining := 3 |} Line2)
        ++ synchronized.task_trace
             (snd (synchronized.Animate {| synchronized.lcd := example_display |}
                     {| text := gostr "hi"; remaining := 3 |} Line2) 4%nat))
     = Some [].
Proof.
  assert (Hw : 0 <= LineWidth example_display <= fmt.widthLimit)
    by (unfold fmt.widthLimit; cbn; lia).
  split; [exact Hw|]. split.
  - exact (proj1 (proj2 (Animate_holds_line_until_done example_display
                           {| text := gostr "hi"; remaining := 3 |} Line2 line2
                           2%nat Hw (or_intror (conj eq_refl eq_refl))))).
  - exact (proj1 (proj2 (Animate_holds_line_until_done example_display
                           {| text := gostr "hi"; remaining := 3 |} Line2 line2
                           4%nat Hw (or_intror (conj eq_refl eq_refl))))).
Defined.

Lemma Animate_first_turn_witness :
  (fst (animations.Done
          (animations.Width (LineWidth example_display)
             {| text := gostr "hi"; remaining := 0 |})) = true
   /\ snd (synchronized.Animate {| synchronized.lcd := example_display |}
             {| text := gostr "hi"; remaining := 0 |} Line1) 1%nat
      = synchronized.Finished [AnimationWidth 16; Unlock line1; SendDone])
  /\ (fst (animations.Done
             (animations.Width (LineWidth (mkLCD 10 9 [6; 13; 19; 26] (-16)))
                {| text := gostr "hi"; remaining := 2 |})) = false
      /\ LineWidth (mkLCD 10 9 [6; 13; 19; 26] (-16)) < 0
      /\ snd (synchronized.Animate
                {| synchronized.lcd := mkLCD 10 9 [6; 13; 19; 26] (-16) |}
                {| text := gostr "hi"; remaining := 2 |} Line1) 1%nat
         = synchronized.Crashed
             [AnimationWidth (-16); Lock linelock; Unlock linelock]).
Proof.
  split.
  - split; [reflexivity|].
    exact (proj1 (Animate_first_turn example_display
                    {| text := gostr "hi"; remaining := 0 |} Line1 0%nat) eq_refl).
  - split; [reflexivity|].
    assert (Hw : LineWidth (mkLCD 10 9 [6; 13; 19; 26] (-16)) < 0) by (cbn; lia).
    split; [exact Hw|].
    exact (proj2 (Animate_first_turn (mkLCD 10 9 [6; 13; 19; 26] (-16))
                    {| text := gostr "hi"; remaining := 2 |} Line1 0%nat)
             eq_refl Hw).
Defined.

(** ** Construction and shutdown *)

Lemma uint8_range x : 0 <= uint8 x < 256.
Proof. unfold uint8. apply Z.mod_pos_bound. lia. Qed.

Lemma uint8_idempotent x : uint8 (uint8 x) = uint8 x.
Proof. apply uint8_small, uint8_range. Qed.

Lemma opens_app t u : opens (t ++ u) = (opens t + opens u)%nat.
Proof. unfold opens. now rewrite filter_app, length_app. Qed.

Lemma opens_Output_cons p t : opens (Output p :: t) = opens t.
Proof. reflexivity. Qed.

Lemma opens_Output_pins ps : opens (map Output ps) = 0%nat.
Proof. induction ps as [|p ps IH]; [reflexivity|exact IH]. Qed.

(** X16: whatever [New] returns as a display has four or eight data pins,
    all its pin numbers within 0..255 and the width asked for; on return
    the package is marked prepared, [rpio.Open] was called once if it was
    not and not at all if it was, and the only other events set RS, E and
    the data pins, in this order, to output.  [New] ends the process only
    for a valid pin count, when the package was not prepared and
    [rpio.Open] fails, and then before any pin is configured. *)
Theorem New_result (gpio_ok : bool) (g : globals)
    (rs e : Z) (data : list Z) (linewidth : Z) :
  (forall l g' t,
     New gpio_ok g rs e data linewidth = Ret (inl l) g' t ->
     (List.length (DataPins l) = 4%nat \/ List.length (DataPins l) = 8%nat)
     /\ 0 <= RS l < 256 /\ 0 <= E l < 256
     /\ Forall (fun p => 0 <= p < 256) (DataPins l)
     /\ Width l = linewidth
     /\ rpioPrepared g' = true
     /\ opens t = (if rpioPrepared g then 0%nat else 1%nat)
     /\ t = (if rpioPrepared g then [] else [RpioOpen])
            ++ [Output (RS l); Output (E l)] ++ map Output (DataPins l))
  /\ (forall t,
        New gpio_ok g rs e data linewidth = Fatal t ->
        (List.length data = 4%nat \/ List.length data = 8%nat)
        /\ rpioPrepared g = false /\ gpio_ok = false /\ t = [RpioOpen]).
Proof.
  set (l0 := {| RS := uint8 rs; E := uint8 e;
                DataPins := map uint8 data; LineWidth := linewidth |}).
  assert (Hpins : Forall (fun p => 0 <= p < 256) (map uint8 data)).
  { apply Forall_forall. intros p Hp. apply in_map_iff in Hp.
    destruct Hp as (x & <- & _). apply uint8_range. }
  unfold New. fold l0.
  destruct (negb (Z.of_nat (List.length data) =? 4)
            && negb (Z.of_nat (List.length data) =? 8)) eqn:Hgate.
  { split; intros; discriminate. }
  assert (Hlen : List.length data = 4%nat \/ List.length data = 8%nat).
  { apply andb_false_iff in Hgate. destruct Hgate as [Hgate|Hgate];
      apply negb_false_iff, Z.eqb_eq in Hgate; [left|right]; lia. }
  unfold initPins, Open. destruct g as [prepared]. cbn [rpioPrepared].
  assert (Hok : forall l g' t opening,
            Ret (inl l0 : LCD + string) {| rpioPrepared := true |}
              (opening ++ [Output (RS l0); Output (E l0)]
                 ++ map Output (DataPins l0))
            = Ret (inl l) g' t ->
            opens opening = (if prepared then 0%nat else 1%nat) ->
            opening = (if prepared then [] else [RpioOpen]) ->
            (List.length (DataPins l) = 4%nat \/ List.length (DataPins l) = 8%nat)
            /\ 0 <= RS l < 256 /\ 0 <= E l < 256
            /\ Forall (fun p => 0 <= p < 256) (DataPins l)
            /\ Width l = linewidth
            /\ rpioPrepared g' = true
            /\ opens t = (if prepared then 0%nat else 1%nat)
            /\ t = (if prepared then [] else [RpioOpen])
                   ++ [Output (RS l); Output (E l)] ++ map Output (DataPins l)).
  { intros l g' t opening Heq Hopens Hopening.
    injection Heq as <- <- <-. subst l0. cbn [RS E DataPins LineWidth Width].
    rewrite length_map.
    repeat split; try apply uint8_range; try exact Hpins; try exact Hlen.
    - rewrite ?opens_app, Hopens, ?opens_Output_cons, opens_Output_pins. lia.
    - now rewrite Hopening. }
  destruct prepared; [|destruct gpio_ok].
  - split; [|intros; discriminate].
    intros l g' t Heq. apply (Hok l g' t []); [exact Heq|reflexivity..].
  - split; [|intros; discriminate].
    intros l g' t Heq. apply (Hok l g' t [RpioOpen]); [exact Heq|reflexivity..].
  - split; [intros; discriminate|].
    intros t Heq. injection Heq as <-. auto.
Qed.

Lemma New_result_witness :
  New true {| rpioPrepared := false |} 10 9 [6; 13; 19; 26] 16
  = Ret (inl example_display) {| rpioPrepared := true |}
        [RpioOpen; Output 10; Output 9; Output 6; Output 13; Output 19; Output 26]
  /\ opens [RpioOpen; Output 10; Output 9; Output 6; Output 13; Output 19;
            Output 26] = 1%nat
  /\ New false {| rpioPrepared := false |} 10 9 [6; 13; 19; 26] 16
     = Fatal [RpioOpen]
  /\ (rpioPrepared {| rpioPrepared := false |} = false /\ false = false).
Proof.
  destruct (New_result true {| rpioPrepared := false |} 10 9 [6; 13; 19; 26] 16)
    as [Hret _].
  destruct (New_result false {| rpioPrepared := false |} 10 9 [6; 13; 19; 26] 16)
    as [_ Hfatal].
  assert (Hnew : New true {| rpioPrepared := false |} 10 9 [6; 13; 19; 26] 16
                 = Ret (inl example_display) {| rpioPrepared := true |}
                       [RpioOpen; Output 10; Output 9; Output 6; Output 13;
                        Output 19; Output 26]) by reflexivity.
  assert (Hdie : New false {| rpioPrepared := false |} 10 9 [6; 13; 19; 26] 16
                 = Fatal [RpioOpen]) by reflexivity.
  split; [exact Hnew|]. split.
  - exact (proj1 (proj2 (proj2 (proj2 (proj2 (proj2 (proj2
             (Hret _ _ _ Hnew)))))))).
  - split; [exact Hdie|].
    destruct (Hfatal _ Hdie) as (_ & Hprepared & Hgpio & _).
    exact (conj Hprepared Hgpio).
Defined.

(** X17: [New] takes pin numbers modulo 256: it returns the same, events
    included, for [rs], [e] and the data pins as for their remainders, so
    that pin [n + 256 * k] is pin [n]. *)
Theorem New_pin_numbers_wrap (gpio_ok : bool) (g : globals)
    (rs e : Z) (data : list Z) (linewidth : Z) :
  New gpio_ok g rs e data linewidth
  = New gpio_ok g (uint8 rs) (uint8 e) (map uint8 data) linewidth
  /\ forall k k',
       New gpio_ok g (rs + 256 * k) (e + 256 * k') data linewidth
       = New gpio_ok g rs e data linewidth.
Proof.
  assert (Hmap : map uint8 (map uint8 data) = map uint8 data).
  { rewrite map_map. apply map_ext. intros x. apply uint8_idempotent. }
  split.
  - unfold New. now rewrite length_map, Hmap, !uint8_idempotent.
  - intros k k'. unfold New.
    replace (uint8 (rs + 256 * k)) with (uint8 rs)
      by (unfold uint8; rewrite Z.mul_comm; now rewrite Z_mod_plus_full).
    replace (uint8 (e + 256 * k')) with (uint8 e)
      by (unfold uint8; rewrite Z.mul_comm; now rewrite Z_mod_plus_full).
    reflexivity.
Qed.

(** X18: the package function [Close] calls [rpio.Close] exactly when the
    package is prepared, ends the process exactly when that call fails,
    and otherwise returns with [rpioPrepared] as it was: it never clears
    the flag.  A [New] after a [Close] of the prepared package therefore
    sets its pins to output without calling [rpio.Open] again. *)
Theorem Close_keeps_prepared (close_ok : bool) (g : globals) :
  lcd1602_package.rpio_closed (lcd1602_package.Close close_ok g)
  = rpioPrepared g
  /\ (lcd1602_package.after_close (lcd1602_package.Close close_ok g) = None
      <-> rpioPrepared g = true /\ close_ok = false)
  /\ (forall g',
        lcd1602_package.after_close (lcd1602_package.Close close_ok g) = Some g' ->
        g' = g)
  /\ (rpioPrepared g = true ->
      forall g' gpio_ok rs e data linewidth,
        lcd1602_package.after_close (lcd1602_package.Close close_ok g) = Some g' ->
        List.length data = 4%nat \/ List.length data = 8%nat ->
        New gpio_ok g' rs e data linewidth
        = Ret (inl {| RS := uint8 rs; E := uint8 e;
                      DataPins := map uint8 data; LineWidth := linewidth |})
              g'
              ([Output (uint8 rs); Output (uint8 e)]
               ++ map Output (map uint8 data))).
Proof.
  unfold lcd1602_package.Close. destruct g as [prepared]. cbn [rpioPrepared].
  split; [|split; [|split]].
  - destruct prepared, close_ok; reflexivity.
  - destruct prepared, close_ok; cbn; split; try discriminate; try tauto;
      intros [? ?]; discriminate.
  - intros g'. destruct prepared, close_ok; cbn; intros Heq;
      try discriminate; now injection Heq as <-.
  - intros -> g' gpio_ok rs e data linewidth Hclose Hlen.
    destruct close_ok; cbn in Hclose; [|discriminate].
    injection Hclose as <-. unfold New.
    assert (Hgate : negb (Z.of_nat (List.length data) =? 4)
                    && negb (Z.of_nat (List.length data) =? 8) = false).
    { destruct Hlen as [-> | ->]; reflexivity. }
    rewrite Hgate. reflexivity.
Qed.

Lemma Close_keeps_prepared_witness :
  rpioPrepared {| rpioPrepared := true |} = true
  /\ lcd1602_package.after_close
       (lcd1602_package.Close true {| rpioPrepared := true |})
     = Some {| rpioPrepared := true |}
  /\ (List.length [6; 13; 19; 26] = 4%nat \/ List.length [6; 13; 19; 26] = 8%nat)
  /\ New false {| rpioPrepared := true |} 10 9 [6; 13; 19; 26] 16
     = Ret (inl {| RS := uint8 10; E := uint8 9;
                   DataPins := map uint8 [6; 13; 19; 26]; LineWidth := 16 |})
           {| rpioPrepared := true |}
           ([Output (uint8 10); Output (uint8 9)]
            ++ map Output (map uint8 [6; 13; 19; 26])).
Proof.
  split; [reflexivity|]. split; [reflexivity|].
  split; [left; reflexivity|].
  exact (proj2 (proj2 (proj2
           (Close_keeps_prepared true {| rpioPrepared := true |})))
           eq_refl {| rpioPrepared := true |} false 10 9 [6; 13; 19; 26] 16
           eq_refl (or_introl eq_refl)).
Defined.

(** ** The bus traffic of a line shows its text *)

Lemma byte_val_inj b b' : byte_val b = byte_val b' -> b = b'.
Proof.
  unfold byte_val. intros Heq. apply N2Z.inj in Heq.
  assert (Hsome : Some b = Some b')
    by (rewrite <- (Byte.of_to_N b), <- (Byte.of_to_N b'); now rewrite Heq).
  now injection Hsome.
Qed.

Lemma map_byte_val_inj s s' : map byte_val s = map byte_val s' -> s = s'.
Proof.
  revert s'. induction s as [|b s IH]; intros [|b' s'] Heq; try discriminate Heq.
  - reflexivity.
  - cbn in Heq. injection Heq as Hb Hs. apply byte_val_inj in Hb.
    subst b'. f_equal. now apply IH.
Qed.

Lemma ascii_only_fitted width s : ascii_only s -> ascii_only (fitted width s).
Proof.
  intros Hs. unfold fitted.
  apply ascii_only_firstn, ascii_only_app; [apply ascii_only_spaces|exact Hs].
Qed.

(** X19: on four or eight data pins and a width in the range of [fmt], two
    line writes of ASCII texts perform the same events exactly when they go
    to the same line and show the same fitted text: the events determine
    the line address and every one of the [width] characters. *)
Theorem WriteLine_ascii_injective (l : LCD) (s s' : gostring)
    (line line' : LineNumber) :
  List.length (DataPins l) = 4%nat \/ List.length (DataPins l) = 8%nat ->
  0 <= LineWidth l <= fmt.widthLimit ->
  ascii_only s -> ascii_only s' ->
  (WriteLine l s line = WriteLine l s' line'
   <-> uint8 line = uint8 line'
       /\ fitted (LineWidth l) s = fitted (LineWidth l) s').
Proof.
  intros Hpins Hw Hs Hs'. rewrite !WriteLine_returns by exact Hw. split.
  - intros Heq. apply (f_equal events) in Heq. cbn [events] in Heq.
    unfold line_write in Heq. apply app_inv_head in Heq.
    apply app_same_length in Heq; [|apply length_Write].
    destruct Heq as [Haddress Hdata].
    apply (Write_determines_byte l _ _ _ _ Hpins) in Haddress;
      [|apply uint8_range..].
    split; [exact Haddress|].
    apply app_inv_tail in Hdata.
    rewrite !data_writes_ascii in Hdata by now apply ascii_only_fitted.
    rewrite !(flat_map_concat_map (fun b => Write l (byte_val b) RSData)) in Hdata.
    rewrite <- !(map_map byte_val (fun x => Write l x RSData)) in Hdata.
    rewrite <- !flat_map_concat_map in Hdata.
    apply map_byte_val_inj.
    apply (flat_map_Write_inj l _ _ Hpins); [| | |exact Hdata].
    + apply Forall_forall. intros x Hx. apply in_map_iff in Hx.
      destruct Hx as (b & <- & _). apply byte_val_range.
    + apply Forall_forall. intros x Hx. apply in_map_iff in Hx.
      destruct Hx as (b & <- & _). apply byte_val_range.
    + rewrite !length_map, !fitted_length by apply Hw. reflexivity.
  - intros [-> ->]. reflexivity.
Qed.

Lemma WriteLine_ascii_injective_witness :
  (List.length (DataPins example_display) = 4%nat
   \/ List.length (DataPins example_display) = 8%nat)
  /\ 0 <= LineWidth example_display <= fmt.widthLimit
  /\ ascii_only (gostr "hi") /\ ascii_only (gostr " hi")
  /\ WriteLine example_display (gostr "hi") Line1
     = WriteLine example_display (gostr " hi") Line1.
Proof.
  assert (Hpins : List.length (DataPins example_display) = 4%nat
                  \/ List.length (DataPins example_display) = 8%nat)
    by (left; reflexivity).
  assert (Hw : 0 <= LineWidth example_display <= fmt.widthLimit)
    by (unfold fmt.widthLimit; cbn; lia).
  assert (Hs : ascii_only (gostr "hi"))
    by (repeat (apply Forall_cons; [cbn; lia|]); apply Forall_nil).
  assert (Hs' : ascii_only (gostr " hi"))
    by (repeat (apply Forall_cons; [cbn; lia|]); apply Forall_nil).
  split; [exact Hpins|]. split; [exact Hw|]. split; [exact Hs|]. split; [exact Hs'|].
  apply (proj2 (WriteLine_ascii_injective example_display (gostr "hi") (gostr " hi")
                  Line1 Line1 Hpins Hw Hs Hs')).
  split; reflexivity.
Defined.

(** ** A held line mutex stops the whole of WriteLines *)




(** * The start-up instruction, widths [fmt] refuses, and the line lock *)

(** No instruction byte of [Initialize] is a Set DDRAM Address instruction:
    all seven have bit 7 clear.  The fifth write, after the two reset
    writes, entry mode and display mode, is the Function Set byte [0x28],
    and on the four data pins of the example display no write of a byte
    with bit 7 set performs the events of that write. *)
Lemma Initialize_sends_no_DDRAM_address :
  (exists before after,
     Initialize example_display
     = before ++ Write example_display 0x28 RSInstruction ++ after
     /\ write_calls before = 4%nat /\ write_calls after = 2%nat)
  /\ function_set 0x28 = true
  /\ set_DDRAM_address 0x28 = false
  /\ set_DDRAM_address Line1 = true /\ set_DDRAM_address Line2 = true
  /\ Forall (fun v => set_DDRAM_address v = false)
       [0x33; 0x32; 0x06; 0x0C; 0x28; 0x02; 0x01]
  /\ (forall v, 0 <= v < 256 -> set_DDRAM_address v = true ->
      Write example_display v RSInstruction
      <> Write example_display 0x28 RSInstruction).
Proof.
  split.
  { exists (Reset example_display ++ EntryModeSet example_display true false
            ++ DisplayMode example_display true false false),
           (ReturnHome example_display ++ Clear example_display
            ++ [Sleep (10 * Millisecond)]).
    split; [|split]; vm_compute; reflexivity. }
  split; [reflexivity|]. split; [reflexivity|].
  split; [reflexivity|]. split; [reflexivity|].
  split; [repeat constructor|].
  intros v Hv Hbit Heq.
  apply (Write_determines_byte example_display v 0x28) in Heq;
    [|left; reflexivity|exact Hv|lia].
  subst v. discriminate Hbit.
Qed.

(** From [fmt.refusedFrom] on, [fmt] prints its complaint in front of the
    text instead of padding it, and unless the text is about as long as the
    width the slice expression panics: [WriteLine] performs no bus write. *)
Lemma WriteLine_refused_width l s line :
  fmt.refusedFrom <= LineWidth l ->
  Z.of_nat (List.length s) + 27 < LineWidth l ->
  WriteLine l s line = Panics [Lock linelock; Unlock linelock].
Proof.
  intros Hrefused Hshort. unfold WriteLine, fmt.Sprintf_width, slice_to.
  assert (Hw : 0 <= LineWidth l) by (unfold fmt.refusedFrom in Hrefused; lia).
  rewrite Z.abs_eq by exact Hw.
  destruct (Z.leb_spec fmt.refusedFrom (LineWidth l)) as [_|]; [|lia].
  destruct (Z.ltb_spec (LineWidth l) 0) as [|_]; [lia|]. cbn [orb].
  destruct (Z.ltb_spec
              (Z.of_nat (List.length (fmt.noVerb ++ s ++ gostr ")")))
              (LineWidth l)) as [_|Hlong]; [reflexivity|].
  assert (Hfront : List.length fmt.noVerb = 26%nat) by reflexivity.
  assert (Hback : List.length (gostr ")") = 1%nat) by reflexivity.
  rewrite !length_app, Hfront, Hback in Hlong. lia.
Qed.

Section AnimateLineLock.
Context {A : Type} `{animations.Animation A}.





End AnimateLineLock.


